(** * Cache manager of the newscaster bot (src/cache_manager.py)

    A shallow embedding of [CacheManager] and of the library calls it relies
    on ([datetime], [hashlib.md5], [json.load]/[json.dump] on the three cache
    files), followed by the properties of the caching and deduplication
    layer.

    Conventions.
    - A Python [str] is the [string] of its UTF-8 bytes; [str.encode()] is
      then the identity and the code-point order of [sorted] is the
      byte-wise order [String.le]. (A [str] with a lone surrogate has no
      such bytes and is left out.)
    - A naive [datetime] is the count of microseconds since
      0001-01-01T00:00:00 in the proleptic Gregorian calendar, a [Z] in
      [0, MAX_MICROS).
    - A Python [dict] with string keys is a [gmap string _].
    - Every public method reads the clock at one instant [now], handed in as
      an argument.
    - The library is that of CPython 3.11 on Linux: [fromisoformat] with
      the grammar of that release, [strftime] as glibc formats, [Path.exists]
      as [pathlib] has it there.
    - [CacheManager] is modelled in the setting it is written for: a cache
      directory that the process can search, read and write, files that
      are absent, unparseable or hold the records the class itself writes,
      and articles whose fields are strings. What [_load_cache] does
      outside that setting is in [Storage].
    - The messages printed are left out; [__init__] prints one with an
      emoji, so an instance exists only where printing them works. *)

From Stdlib Require Import ZArith String Ascii List Lia DecimalString.
From Stdlib Require DecimalPos DecimalZ.
From stdpp Require Import base numbers option list gmap strings fin_maps sorting.

Local Open Scope Z_scope.

(** ** Python's [datetime] *)

Module Datetime.

(** *** Proleptic Gregorian calendar (Lib/_pydatetime.py) *)

Definition _is_leap (year : Z) : bool :=
  (year mod 4 =? 0) && (negb (year mod 100 =? 0) || (year mod 400 =? 0)).

Definition _days_before_year (year : Z) : Z :=
  let y := year - 1 in y * 365 + y / 4 - y / 100 + y / 400.

Definition _DAYS_IN_MONTH (month : Z) : Z :=
  match month with
  | 1 => 31 | 2 => 28 | 3 => 31 | 4 => 30 | 5 => 31 | 6 => 30
  | 7 => 31 | 8 => 31 | 9 => 30 | 10 => 31 | 11 => 30 | 12 => 31
  | _ => -1
  end.

Definition _DAYS_BEFORE_MONTH (month : Z) : Z :=
  match month with
  | 1 => 0 | 2 => 31 | 3 => 59 | 4 => 90 | 5 => 120 | 6 => 151
  | 7 => 181 | 8 => 212 | 9 => 243 | 10 => 273 | 11 => 304 | 12 => 334
  | _ => -1
  end.

Definition _days_in_month (year month : Z) : Z :=
  if (month =? 2) && _is_leap year then 29 else _DAYS_IN_MONTH month.

Definition _days_before_month (year month : Z) : Z :=
  _DAYS_BEFORE_MONTH month + (if (2 <? month) && _is_leap year then 1 else 0).

Definition _ymd2ord (year month day : Z) : Z :=
  _days_before_year year + _days_before_month year month + day.

Definition _DI400Y : Z := 146097.
Definition _DI100Y : Z := 36524.
Definition _DI4Y : Z := 1461.
Definition _MAXORDINAL : Z := 3652059.
Definition MINYEAR : Z := 1.
Definition MAXYEAR : Z := 9999.

(** Month and day of the [n]-th day (from 0) of a year: the tail of
    [_ord2ymd], after the year has been found. *)
Definition _month_day (leapyear : bool) (n : Z) : Z * Z :=
  let month := Z.shiftr (n + 50) 5 in
  let preceding :=
    _DAYS_BEFORE_MONTH month + (if (2 <? month) && leapyear then 1 else 0) in
  if n <? preceding then
    let month' := month - 1 in
    let preceding' :=
      preceding - (_DAYS_IN_MONTH month'
                   + (if (month' =? 2) && leapyear then 1 else 0)) in
    (month', n - preceding' + 1)
  else (month, n - preceding + 1).

(** What [_month_day] must satisfy: a month, a day of that month, and the
    right count of days since January 1st. *)
Definition _month_day_ok (leapyear : bool) (n : Z) : bool :=
  let '(m, d) := _month_day leapyear n in
  (1 <=? m) && (m <=? 12) && (1 <=? d)
  && (d <=? _DAYS_IN_MONTH m + (if (m =? 2) && leapyear then 1 else 0))
  && (_DAYS_BEFORE_MONTH m + (if (2 <? m) && leapyear then 1 else 0) + d
      =? n + 1).

Definition _ord2ymd (n : Z) : Z * Z * Z :=
  let n := n - 1 in
  let n400 := n / _DI400Y in
  let n := n mod _DI400Y in
  let year := n400 * 400 + 1 in
  let n100 := n / _DI100Y in
  let n := n mod _DI100Y in
  let n4 := n / _DI4Y in
  let n := n mod _DI4Y in
  let n1 := n / 365 in
  let n := n mod 365 in
  let year := year + n100 * 100 + n4 * 4 + n1 in
  if (n1 =? 4) || (n100 =? 4) then (year - 1, 12, 31)
  else
    let leapyear := (n1 =? 3) && (negb (n4 =? 24) || (n100 =? 3)) in
    let '(month, day) := _month_day leapyear n in
    (year, month, day).

(** *** Naive datetimes as microsecond counts *)

Definition datetime : Type := Z.

Definition US_PER_SECOND : Z := 1000000.
Definition US_PER_MINUTE : Z := 60 * US_PER_SECOND.
Definition US_PER_HOUR : Z := 60 * US_PER_MINUTE.
Definition US_PER_DAY : Z := 24 * US_PER_HOUR.

(** One past [datetime.max] = 9999-12-31T23:59:59.999999. *)
Definition MAX_MICROS : Z := _MAXORDINAL * US_PER_DAY.

(** The values a [datetime] object can hold. *)
Definition in_range (t : Z) : bool := (0 <=? t) && (t <? MAX_MICROS).

(** [date.toordinal()] of the day [t] falls on. *)
Definition toordinal (t : datetime) : Z := t / US_PER_DAY + 1.

Definition hour (t : datetime) : Z := (t mod US_PER_DAY) / US_PER_HOUR.
Definition minute (t : datetime) : Z := (t mod US_PER_HOUR) / US_PER_MINUTE.
Definition second (t : datetime) : Z := (t mod US_PER_MINUTE) / US_PER_SECOND.
Definition microsecond (t : datetime) : Z := t mod US_PER_SECOND.

(** [datetime(year, month, day, hour, minute, second, microsecond)]; a
    field out of range raises [ValueError]. *)
Definition mk_datetime (y m d hh mm ss us : Z) : option datetime :=
  if (MINYEAR <=? y) && (y <=? MAXYEAR) && (1 <=? m) && (m <=? 12)
     && (1 <=? d) && (d <=? _days_in_month y m)
     && (0 <=? hh) && (hh <? 24) && (0 <=? mm) && (mm <? 60)
     && (0 <=? ss) && (ss <? 60) && (0 <=? us) && (us <? 1000000)
  then Some ((_ymd2ord y m d - 1) * US_PER_DAY + hh * US_PER_HOUR
             + mm * US_PER_MINUTE + ss * US_PER_SECOND + us)
  else None.

(** [t + timedelta(hours=h)]: [OverflowError] ([None]) when the sum leaves
    the representable range (which a [timedelta] beyond its own 999999999
    days always does). *)
Definition add_hours (t : datetime) (h : Z) : option datetime :=
  let r := t + h * US_PER_HOUR in
  if in_range r then Some r else None.

(** *** Fixed-width decimal fields *)

Definition digit_char (d : Z) : ascii := ascii_of_N (48 + Z.to_N d).

Definition digit_val (c : ascii) : option Z :=
  let n := Z.of_N (N_of_ascii c) in
  if (48 <=? n) && (n <=? 57) then Some (n - 48) else None.

(** ["%0<width>d" % n] for [0 <= n < 10 ^ width]. *)
Fixpoint zfill (width : nat) (n : Z) : string :=
  match width with
  | O => ""
  | S w => String (digit_char (n / 10 ^ Z.of_nat w mod 10)) (zfill w n)
  end.

(** Reads exactly [width] decimal digits. *)
Fixpoint digits (width : nat) (s : string) : option (Z * string) :=
  match width with
  | O => Some (0, s)
  | S w =>
      match s with
      | String c s' =>
          d ← digit_val c;
          '(v, rest) ← digits w s';
          Some (d * 10 ^ Z.of_nat w + v, rest)
      | EmptyString => None
      end
  end.

Definition expect (c : ascii) (s : string) : option string :=
  match s with
  | String c' s' => if Ascii.eqb c c' then Some s' else None
  | EmptyString => None
  end.

(** *** [isoformat()] and [strftime('%Y-%m-%d')] *)

(** [date.isoformat()]: ["%04d-%02d-%02d"]. *)
Definition isoformat_date (t : datetime) : string :=
  let '(y, m, d) := _ord2ymd (toordinal t) in
  zfill 4 y +:+ "-" +:+ zfill 2 m +:+ "-" +:+ zfill 2 d.

Definition isoformat (t : datetime) : string :=
  isoformat_date t +:+ "T" +:+ zfill 2 (hour t) +:+ ":"
  +:+ zfill 2 (minute t) +:+ ":" +:+ zfill 2 (second t)
  +:+ (if microsecond t =? 0 then "" else "." +:+ zfill 6 (microsecond t)).

(** [strftime('%Y-%m-%d')] hands the format to the C library; glibc
    prints the year of [%Y] without padding (['999-01-01']), the month and
    the day on two digits. *)
Definition strftime_Ymd (t : datetime) : string :=
  let '(y, m, d) := _ord2ymd (toordinal t) in
  NilZero.string_of_int (Z.to_int y) +:+ "-" +:+ zfill 2 m +:+ "-"
  +:+ zfill 2 d.

(** *** [datetime.fromisoformat]

    The parser of CPython 3.11 ([Modules/_datetimemodule.c]), which reads
    the UTF-8 bytes of the string as a NUL-terminated C string: besides the
    output of [isoformat] it takes the basic formats ([20240115T103000]),
    ISO week dates ([2024-W03-1]), any one character as separator, a
    fraction of any length after [.] or [,], and the offsets [Z], [+HH],
    [+HHMM], [+HH:MM[:SS[.ffffff]]]. (CPython 3.7 to 3.10 accept only what
    [isoformat] prints.) A string outside the grammar, or one whose fields
    are out of range, raises [ValueError] ([None]). An offset makes the
    result timezone-aware: [Aware local utcoffset] is the local time
    [local] at [utcoffset] microseconds from UTC. *)

Inductive parsed : Type :=
  | Naive (t : datetime)
  | Aware (local : datetime) (utcoffset : Z).

Definition NUL : ascii := "000"%char.

(** [*p]: the byte under the pointer, the terminating NUL at the end. *)
Definition peek (p : string) : ascii :=
  match p with
  | String c _ => c
  | EmptyString => NUL
  end.

(** [p + 1] *)
Definition next (p : string) : string :=
  match p with
  | String _ p' => p'
  | EmptyString => ""
  end.

(** [p + n] *)
Fixpoint advance (n : nat) (p : string) : string :=
  match n with
  | O => p
  | S n' => advance n' (next p)
  end.

Definition strlen (s : string) : Z := Z.of_nat (String.length s).

Definition is_digit (c : ascii) : bool :=
  match digit_val c with
  | Some _ => true
  | None => false
  end.

(** The number of digits [p] starts with. *)
Fixpoint digit_run (p : string) : nat :=
  match p with
  | String c p' => if is_digit c then S (digit_run p') else O
  | EmptyString => O
  end.

(** Where the date ends: 7, 8 or 10 bytes in, by the bytes at 4 and 5 and,
    for week dates, what follows them. *)
Definition _find_isoformat_datetime_separator (dtstr : string) : option nat :=
  let len := strlen dtstr in
  if len =? 7 then Some 7%nat
  else if Ascii.eqb (peek (advance 4 dtstr)) "-" then
    if Ascii.eqb (peek (advance 5 dtstr)) "W" then
      if len <? 8 then None
      else if (8 <? len) && Ascii.eqb (peek (advance 8 dtstr)) "-" then
        if len =? 9 then None
        else if (10 <? len) && is_digit (peek (advance 10 dtstr))
             then Some 8%nat
             else Some 10%nat
      else Some 8%nat
    else Some 10%nat
  else if Ascii.eqb (peek (advance 4 dtstr)) "W" then
    let idx := (7 + digit_run (advance 7 dtstr))%nat in
    if (idx <? 9)%nat then Some idx
    else if Nat.even idx then Some 7%nat else Some 8%nat
  else Some 8%nat.

(** [weekday(year, 1, 1)], Monday being 0. *)
Definition first_weekday (year : Z) : Z := (_ymd2ord year 1 1 + 6) mod 7.

Definition iso_week1_monday (year : Z) : Z :=
  let first_day := _ymd2ord year 1 1 in
  let week1_monday := first_day - first_weekday year in
  if 3 <? first_weekday year then week1_monday + 7 else week1_monday.

(** Year, month and day of an ISO year, week and weekday; the ISO year 0,
    on which the C code computes a month below 1 that the constructor then
    rejects, is refused here. *)
Definition iso_to_ymd (iso_year iso_week iso_day : Z) : option (Z * Z * Z) :=
  if iso_year <? MINYEAR then None
  else if ((iso_week <=? 0) || (53 <=? iso_week))
          && negb ((iso_week =? 53)
                   && ((first_weekday iso_year =? 3)
                       || ((first_weekday iso_year =? 2)
                           && _is_leap iso_year)))
  then None
  else if (iso_day <=? 0) || (8 <=? iso_day) then None
  else Some (_ord2ymd (iso_week1_monday iso_year
                       + (iso_week - 1) * 7 + iso_day - 1)).

(** The date of the first [len] bytes of [dtstr]. *)
Definition parse_isoformat_date (dtstr : string) (len : Z)
  : option (Z * Z * Z) :=
  '(year, p) ← digits 4 dtstr;
  let uses_separator := Ascii.eqb (peek p) "-" in
  let p := if uses_separator then next p else p in
  if Ascii.eqb (peek p) "W" then
    '(iso_week, p) ← digits 2 (next p);
    if strlen dtstr - strlen p <? len then
      p ← (if uses_separator then expect "-" p else Some p);
      '(iso_day, _) ← digits 1 p;
      iso_to_ymd year iso_week iso_day
    else iso_to_ymd year iso_week 1
  else
    '(month, p) ← digits 2 p;
    p ← (if uses_separator then expect "-" p else Some p);
    '(day, _) ← digits 2 p;
    Some (year, month, day).

(** How the loop over hours, minutes and seconds is left: at the end of
    the field string, with or without a byte left over, or for the
    fraction, [len_remains] bytes before the end. *)
Inductive fields_exit : Type :=
  | AtEnd (leftover : bool)
  | ToFraction (p : string) (len_remains : Z).

(** The loop of [parse_hh_mm_ss_ff], [i] fields to go; [len_remains] is
    [p_end - p]. *)
Fixpoint parse_fields (i : nat) (first has_separator : bool) (p : string)
    (len_remains : Z) : option (list Z * fields_exit) :=
  match i with
  | O => Some ([], ToFraction p len_remains)
  | S i' =>
      '(val, q) ← digits 2 p;
      let c := peek q in
      let has_separator := if first then Ascii.eqb c ":" else has_separator in
      if len_remains - 3 <=? 0
      then Some ([val], AtEnd (negb (Ascii.eqb c NUL)))
      else if has_separator && Ascii.eqb c ":"
      then '(vals, exit) ← parse_fields i' false has_separator (next q)
                             (len_remains - 3);
           Some (val :: vals, exit)
      else if Ascii.eqb c "." || Ascii.eqb c ","
      then Some ([val], ToFraction (next q) (len_remains - 3))
      else if negb has_separator
      then '(vals, exit) ← parse_fields i' false has_separator q
                             (len_remains - 2);
           Some (val :: vals, exit)
      else None
  end.

(** The fraction: up to six digits are read and scaled to microseconds,
    further digits are dropped. *)
Definition parse_fraction (p : string) (len_remains : Z) : option (Z * bool) :=
  let to_parse := Z.to_nat (Z.min len_remains 6) in
  '(microsecond, p) ← digits to_parse p;
  let p := advance (digit_run p) p in
  Some (microsecond * 10 ^ Z.of_nat (6 - to_parse),
        negb (Ascii.eqb (peek p) NUL)).

(** Hour, minute, second, microsecond of the [len] bytes at [tstr], and
    whether a byte other than NUL follows what was read. *)
Definition parse_hh_mm_ss_ff (tstr : string) (len : Z)
  : option (Z * Z * Z * Z * bool) :=
  '(vals, exit) ← parse_fields 3 true true tstr len;
  let hour := default 0 (vals !! 0%nat) in
  let minute := default 0 (vals !! 1%nat) in
  let second := default 0 (vals !! 2%nat) in
  match exit with
  | AtEnd leftover => Some (hour, minute, second, 0, leftover)
  | ToFraction p len_remains =>
      '(microsecond, leftover) ← parse_fraction p len_remains;
      Some (hour, minute, second, microsecond, leftover)
  end.

Definition is_tz_marker (c : ascii) : bool :=
  Ascii.eqb c "Z" || Ascii.eqb c "+" || Ascii.eqb c "-".

(** The offset of the first [Z], [+] or [-], the length when there is
    none. *)
Fixpoint tzinfo_pos (p : string) : nat :=
  match p with
  | String c p' => if is_tz_marker c then O else S (tzinfo_pos p')
  | EmptyString => O
  end.

(** The time of day and, when there is one, the UTC offset in
    microseconds; an offset of zero seconds is UTC whatever its
    fraction. *)
Definition parse_isoformat_time (tstr : string)
  : option (Z * Z * Z * Z * option Z) :=
  let pos := tzinfo_pos tstr in
  '(hour, minute, second, microsecond, leftover) ←
    parse_hh_mm_ss_ff tstr (Z.of_nat pos);
  let tz := advance pos tstr in
  match tz with
  | EmptyString =>
      if (leftover : bool) then None
      else Some (hour, minute, second, microsecond, None)
  | String c tz' =>
      if Ascii.eqb c "Z" then
        if Ascii.eqb (peek tz') NUL
        then Some (hour, minute, second, microsecond, Some 0)
        else None
      else
        let tzsign := if Ascii.eqb c "-" then -1 else 1 in
        '(tzhour, tzminute, tzsecond, tzmicrosecond, leftover) ←
          parse_hh_mm_ss_ff tz' (strlen tz');
        if (leftover : bool) then None
        else
          let tzoffset := tzsign * (tzhour * 3600 + tzminute * 60 + tzsecond) in
          Some (hour, minute, second, microsecond,
                Some (if tzoffset =? 0 then 0
                      else tzoffset * US_PER_SECOND + tzsign * tzmicrosecond))
  end.

(** [p] moved past one UTF-8 character, the separator. *)
Definition skip_character (p : string) : string :=
  let lead := Z.of_N (N_of_ascii (peek p)) in
  if lead <? 128 then advance 1 p
  else if 240 <=? lead then advance 4 p
  else if 224 <=? lead then advance 3 p
  else advance 2 p.

Definition fromisoformat (date_string : string) : option parsed :=
  let len := strlen date_string in
  if len <? 7 then None
  else
    separator_location ← _find_isoformat_datetime_separator date_string;
    '(year, month, day) ←
      parse_isoformat_date date_string (Z.of_nat separator_location);
    '(hour, minute, second, microsecond, tz) ←
      (if Z.of_nat separator_location <? len
       then parse_isoformat_time
              (skip_character (advance separator_location date_string))
       else Some (0, 0, 0, 0, None));
    t ← mk_datetime year month day hour minute second microsecond;
    match tz with
    | None => Some (Naive t)
    | Some utcoffset =>
        if (- US_PER_DAY <? utcoffset) && (utcoffset <? US_PER_DAY)
        then Some (Aware t utcoffset)
        else None
    end.

End Datetime.

(** ** [hashlib.md5] (RFC 1321) *)

Module Hashlib.

Definition add32 (a b : Z) : Z := (a + b) mod 2 ^ 32.

Definition not32 (a : Z) : Z := Z.lxor a 0xffffffff.

Definition rotl32 (x c : Z) : Z :=
  Z.lor (Z.shiftl x c mod 2 ^ 32) (Z.shiftr x (32 - c)).

(** Per-round shift amounts. *)
Definition S_TABLE : list Z :=
  [ 7; 12; 17; 22; 7; 12; 17; 22; 7; 12; 17; 22; 7; 12; 17; 22;
    5; 9; 14; 20; 5; 9; 14; 20; 5; 9; 14; 20; 5; 9; 14; 20;
    4; 11; 16; 23; 4; 11; 16; 23; 4; 11; 16; 23; 4; 11; 16; 23;
    6; 10; 15; 21; 6; 10; 15; 21; 6; 10; 15; 21; 6; 10; 15; 21 ].

(** [floor (2^32 * abs (sin (i + 1)))] for [i] from 0 to 63. *)
Definition K_TABLE : list Z :=
  [
    0xd76aa478; 0xe8c7b756; 0x242070db; 0xc1bdceee;
    0xf57c0faf; 0x4787c62a; 0xa8304613; 0xfd469501;
    0x698098d8; 0x8b44f7af; 0xffff5bb1; 0x895cd7be;
    0x6b901122; 0xfd987193; 0xa679438e; 0x49b40821;
    0xf61e2562; 0xc040b340; 0x265e5a51; 0xe9b6c7aa;
    0xd62f105d; 0x02441453; 0xd8a1e681; 0xe7d3fbc8;
    0x21e1cde6; 0xc33707d6; 0xf4d50d87; 0x455a14ed;
    0xa9e3e905; 0xfcefa3f8; 0x676f02d9; 0x8d2a4c8a;
    0xfffa3942; 0x8771f681; 0x6d9d6122; 0xfde5380c;
    0xa4beea44; 0x4bdecfa9; 0xf6bb4b60; 0xbebfbc70;
    0x289b7ec6; 0xeaa127fa; 0xd4ef3085; 0x04881d05;
    0xd9d4d039; 0xe6db99e5; 0x1fa27cf8; 0xc4ac5665;
    0xf4292244; 0x432aff97; 0xab9423a7; 0xfc93a039;
    0x655b59c3; 0x8f0ccc92; 0xffeff47d; 0x85845dd1;
    0x6fa87e4f; 0xfe2ce6e0; 0xa3014314; 0x4e0811a1;
    0xf7537e82; 0xbd3af235; 0x2ad7d2bb; 0xeb86d391 ].

Definition bytes_of_string (s : string) : list Z :=
  (fun c => Z.of_N (N_of_ascii c)) <$> list_ascii_of_string s.

(** A [width]-byte little-endian integer. *)
Fixpoint le_bytes (width : nat) (n : Z) : list Z :=
  match width with
  | O => []
  | S w => n mod 256 :: le_bytes w (n / 256)
  end.

Fixpoint le_word (bs : list Z) : Z :=
  match bs with
  | [] => 0
  | b :: bs => b + 256 * le_word bs
  end.

(** The message, a 1 bit, zeros up to 56 modulo 64 bytes, and the bit
    length on 64 bits. *)
Definition pad (msg : list Z) : list Z :=
  let len := Z.of_nat (length msg) in
  let zeros := Z.to_nat ((55 - len) mod 64) in
  msg ++ [0x80] ++ replicate zeros 0 ++ le_bytes 8 ((8 * len) mod 2 ^ 64).

(** Cuts a list into [count] runs of [size] elements. *)
Fixpoint chunks {A} (size count : nat) (l : list A) : list (list A) :=
  match count with
  | O => []
  | S n => take size l :: chunks size n (drop size l)
  end.

Record md5_state : Type := Md5State { regA : Z; regB : Z; regC : Z; regD : Z }.

Definition md5_init : md5_state :=
  Md5State 0x67452301 0xefcdab89 0x98badcfe 0x10325476.

Definition md5_round (M : list Z) (st : md5_state) (i : nat) : md5_state :=
  let '(Md5State A B C D) := st in
  let iz := Z.of_nat i in
  let '(F, g) :=
    if iz <? 16 then (Z.lor (Z.land B C) (Z.land (not32 B) D), iz)
    else if iz <? 32 then
      (Z.lor (Z.land D B) (Z.land (not32 D) C), (5 * iz + 1) mod 16)
    else if iz <? 48 then (Z.lxor B (Z.lxor C D), (3 * iz + 5) mod 16)
    else (Z.lxor C (Z.lor B (not32 D)), (7 * iz) mod 16) in
  let F := add32 (add32 (add32 F A) (nth i K_TABLE 0)) (nth (Z.to_nat g) M 0) in
  Md5State D (add32 B (rotl32 F (nth i S_TABLE 0))) B C.

Definition md5_block (st : md5_state) (block : list Z) : md5_state :=
  let M := le_word <$> chunks 4 16 block in
  let '(Md5State A B C D) := foldl (md5_round M) st (seq 0 64) in
  Md5State (add32 (regA st) A) (add32 (regB st) B)
           (add32 (regC st) C) (add32 (regD st) D).

Definition md5_digest (msg : list Z) : list Z :=
  let padded := pad msg in
  let '(Md5State A B C D) :=
    foldl md5_block md5_init (chunks 64 (length padded / 64) padded) in
  le_bytes 4 A ++ le_bytes 4 B ++ le_bytes 4 C ++ le_bytes 4 D.

Definition hex_digit (n : Z) : ascii :=
  ascii_of_N (Z.to_N (if n <? 10 then 48 + n else 87 + n)).

Fixpoint hex_of_bytes (bs : list Z) : string :=
  match bs with
  | [] => ""
  | b :: bs => String (hex_digit (b / 16)) (String (hex_digit (b mod 16)) (hex_of_bytes bs))
  end.

(** [hashlib.md5(s.encode()).hexdigest()] *)
Definition md5_hexdigest (s : string) : string :=
  hex_of_bytes (md5_digest (bytes_of_string s)).

End Hashlib.

(** ** The three JSON files of the cache directory *)

(** An article, or an LLM analysis: a JSON object of string fields, as
    both fetchers build their articles from string fields. *)
Abbreviation Dict := (gmap string string).

(** Records of [articles_cache.json], [analysis_cache.json] and
    [sent_articles.json], with the fields the code writes. *)
Record ArticleEntry : Type := mkArticleEntry {
  ae_topic : string;
  ae_timestamp : string;
  ae_articles : list Dict
}.

Record AnalysisEntry : Type := mkAnalysisEntry {
  an_topic : string;
  an_timestamp : string;
  an_article_count : Z;
  an_analysis : Dict
}.

Record SentEntry : Type := mkSentEntry {
  se_topic : string;
  se_sent_at : string
}.

(** What sits at a path: nothing, bytes [json.load] rejects, or a JSON
    object of records as the class writes them. *)
Inductive file (E : Type) : Type :=
  | Absent
  | Corrupt
  | Stored (data : gmap string E).
Arguments Absent {E}.
Arguments Corrupt {E}.
Arguments Stored {E} data.

Record disk : Type := mkDisk {
  articles_cache_json : file ArticleEntry;
  analysis_cache_json : file AnalysisEntry;
  sent_articles_json : file SentEntry
}.

(** A [Path] of the cache directory: how to read and replace its file. *)
Record path (E : Type) : Type := mkPath {
  read_file : disk -> file E;
  write_file : file E -> disk -> disk
}.
Arguments read_file {E} p d.
Arguments write_file {E} p f d.

(** ** Exceptions and the state of the disk *)

Inductive exn : Type :=
  | KeyError (key : string)
  | FileNotFoundError
  | OSError
  | JSONDecodeError.

Inductive result (A : Type) : Type :=
  | Ok (a : A)
  | Raise (e : exn).
Arguments Ok {A} a.
Arguments Raise {A} e.

Definition M (A : Type) : Type := disk -> result A * disk.

Definition ret {A} (a : A) : M A := fun d => (Ok a, d).

Definition raise {A} (e : exn) : M A := fun d => (Raise e, d).

Definition bind {A B} (m : M A) (f : A -> M B) : M B :=
  fun d =>
    match m d with
    | (Ok a, d') => f a d'
    | (Raise e, d') => (Raise e, d')
    end.

(** [try: body except Exception: handler] *)
Definition try_except {A} (body : M A) (handler : exn -> M A) : M A :=
  fun d =>
    match body d with
    | (Ok a, d') => (Ok a, d')
    | (Raise e, d') => handler e d'
    end.

Notation "x <- m ;; f" := (bind m (fun x => f))
  (at level 20, m at level 99, f at level 200, only parsing).

(** [for x in xs: body x] *)
Fixpoint for_each {A} (xs : list A) (body : A -> M unit) : M unit :=
  match xs with
  | [] => ret tt
  | x :: xs => _ <- body x ;; for_each xs body
  end.

(** [[f x for x in xs]] *)
Fixpoint comprehension {A B} (f : A -> M B) (xs : list A) : M (list B) :=
  match xs with
  | [] => ret []
  | x :: xs => y <- f x ;; ys <- comprehension f xs ;; ret (y :: ys)
  end.

(** [[x for x in xs if cond x]] *)
Fixpoint comprehension_if {A} (cond : A -> M bool) (xs : list A)
  : M (list A) :=
  match xs with
  | [] => ret []
  | x :: xs =>
      keep <- cond x ;;
      ys <- comprehension_if cond xs ;;
      ret (if keep then x :: ys else ys)
  end.

(** [d[key]] *)
Definition getitem {V} (d : gmap string V) (key : string) : M V :=
  match d !! key with
  | Some v => ret v
  | None => raise (KeyError key)
  end.

(** [cache_file.exists()], in a directory that can be searched *)
Definition exists_ {E} (cache_file : path E) : M bool :=
  fun d =>
    (Ok (match read_file cache_file d with Absent => false | _ => true end), d).

(** [with open(cache_file, 'r') as f: json.load(f)] *)
Definition json_load {E} (cache_file : path E) : M (gmap string E) :=
  fun d =>
    match read_file cache_file d with
    | Absent => (Raise FileNotFoundError, d)
    | Corrupt => (Raise JSONDecodeError, d)
    | Stored data => (Ok data, d)
    end.

(** [with open(cache_file, 'w') as f: json.dump(data, f, indent=2)]: the
    records above always serialise, and the disk takes every write. *)
Definition json_dump {E} (cache_file : path E) (data : gmap string E)
  : M unit :=
  fun d => (Ok tt, write_file cache_file (Stored data) d).

(** [cache_file.unlink()], in a directory that can be written *)
Definition unlink {E} (cache_file : path E) : M unit :=
  fun d => (Ok tt, write_file cache_file Absent d).

(** [str(n)] *)
Definition str (n : Z) : string := NilZero.string_of_int (Z.to_int n).

(** [sorted(l)] on strings *)
Definition sorted (l : list string) : list string := merge_sort String.le l.

(** ** [class CacheManager] *)

Module CacheManager.
Import Datetime Hashlib.

Definition articles_cache : path ArticleEntry :=
  mkPath _ articles_cache_json
    (fun f d => mkDisk f (analysis_cache_json d) (sent_articles_json d)).

Definition analysis_cache : path AnalysisEntry :=
  mkPath _ analysis_cache_json
    (fun f d => mkDisk (articles_cache_json d) f (sent_articles_json d)).

Definition sent_articles : path SentEntry :=
  mkPath _ sent_articles_json
    (fun f d => mkDisk (articles_cache_json d) (analysis_cache_json d) f).

(** Cache expiry, in hours, set by [__init__]. *)
Definition article_cache_expiry : Z := 24.
Definition analysis_cache_expiry : Z := 24.

Definition _load_cache {E} (cache_file : path E) : M (gmap string E) :=
  present <- exists_ cache_file ;;
  if present then try_except (json_load cache_file) (fun _ => ret ∅)
  else ret ∅.

(** With a disk that takes every write the handler is never entered. *)
Definition _save_cache {E} (cache_file : path E) (data : gmap string E)
  : M unit :=
  try_except (json_dump cache_file data) (fun _ => ret tt).

(** The bare [except:] turns the [ValueError] of [fromisoformat], the
    [OverflowError] of the addition and the [TypeError] of comparing the
    naive [datetime.now()] with an aware datetime into [True]. *)
Definition _is_expired (now : datetime) (timestamp : string)
    (expiry_hours : Z) : bool :=
  match fromisoformat timestamp with
  | Some (Naive cached_time) =>
      match add_hours cached_time expiry_hours with
      | Some expiry_time => expiry_time <? now
      | None => true
      end
  | Some (Aware _ _) => true
  | None => true
  end.

(** The string [key] hashed by [_generate_cache_key]. *)
Definition _cache_key_text (now : datetime) (topic : string)
    (max_articles : Z) : string :=
  topic +:+ "_" +:+ str max_articles +:+ "_" +:+ strftime_Ymd now.

Definition _generate_cache_key (now : datetime) (topic : string)
    (max_articles : Z) : string :=
  md5_hexdigest (_cache_key_text now topic max_articles).

Definition get_cached_articles (now : datetime) (topic : string)
    (max_articles : Z) : M (option (list Dict)) :=
  let cache_key := _generate_cache_key now topic max_articles in
  cache <- _load_cache articles_cache ;;
  match cache !! cache_key with
  | Some entry =>
      if negb (_is_expired now (ae_timestamp entry) article_cache_expiry)
      then ret (Some (ae_articles entry))
      else ret None
  | None => ret None
  end.

Definition cache_articles (now : datetime) (topic : string)
    (max_articles : Z) (articles : list Dict) : M unit :=
  let cache_key := _generate_cache_key now topic max_articles in
  cache <- _load_cache articles_cache ;;
  _save_cache articles_cache
    (<[cache_key := mkArticleEntry topic (isoformat now) articles]> cache).

(** The first two lines of [get_cached_analysis] and of [cache_analysis]:
    the hash of the sorted article URLs, joined without a separator. *)
Definition _article_set_key (articles : list Dict) : M string :=
  urls <- comprehension (fun a => getitem a "url") articles ;;
  let article_urls := sorted urls in
  ret (md5_hexdigest (String.concat "" article_urls)).

Definition get_cached_analysis (now : datetime) (articles : list Dict)
    (topic : string) : M (option Dict) :=
  cache_key <- _article_set_key articles ;;
  cache <- _load_cache analysis_cache ;;
  match cache !! cache_key with
  | Some entry =>
      if negb (_is_expired now (an_timestamp entry) analysis_cache_expiry)
      then ret (Some (an_analysis entry))
      else ret None
  | None => ret None
  end.

Definition cache_analysis (now : datetime) (articles : list Dict)
    (topic : string) (analysis : Dict) : M unit :=
  cache_key <- _article_set_key articles ;;
  cache <- _load_cache analysis_cache ;;
  _save_cache analysis_cache
    (<[cache_key := mkAnalysisEntry topic (isoformat now)
                      (Z.of_nat (length articles)) analysis]> cache).

Definition is_article_sent (article_url : string) : M bool :=
  sent <- _load_cache sent_articles ;;
  ret (bool_decide (is_Some (sent !! article_url))).

Definition mark_article_sent (now : datetime) (article_url topic : string)
  : M unit :=
  sent <- _load_cache sent_articles ;;
  _save_cache sent_articles
    (<[article_url := mkSentEntry topic (isoformat now)]> sent).

Definition filter_new_articles (articles : list Dict) : M (list Dict) :=
  comprehension_if
    (fun a => url <- getitem a "url" ;;
              sent <- is_article_sent url ;;
              ret (negb sent))
    articles.

Definition mark_articles_sent (now : datetime) (articles : list Dict)
    (topic : string) : M unit :=
  for_each articles
    (fun article => url <- getitem article "url" ;;
                    mark_article_sent now url topic).

(** One sweep loop of [cleanup_old_cache]: the surviving entries and the
    number of expired ones, over [cache.items()]. *)
Definition sweep {E} (expired : E -> bool) (cache : gmap string E)
  : gmap string E * Z :=
  map_fold (fun key entry '(new_cache, cleaned) =>
              if negb (expired entry)
              then (<[key := entry]> new_cache, cleaned)
              else (new_cache, cleaned + 1))
           (∅, 0) cache.

Definition cleanup_old_cache (now : datetime) (days : Z) : M Z :=
  let cleaned := 0 in
  cache <- _load_cache articles_cache ;;
  let '(new_cache, n) :=
    sweep (fun entry => _is_expired now (ae_timestamp entry) (days * 24))
          cache in
  let cleaned := cleaned + n in
  _ <- (if 0 <? cleaned then _save_cache articles_cache new_cache
        else ret tt) ;;
  cache <- _load_cache analysis_cache ;;
  let '(new_cache, analysis_cleaned) :=
    sweep (fun entry => _is_expired now (an_timestamp entry) (days * 24))
          cache in
  _ <- (if 0 <? analysis_cleaned then _save_cache analysis_cache new_cache
        else ret tt) ;;
  let cleaned :=
    if 0 <? analysis_cleaned then cleaned + analysis_cleaned else cleaned in
  sent <- _load_cache sent_articles ;;
  let '(new_sent, sent_cleaned) :=
    sweep (fun entry => _is_expired now (se_sent_at entry) (30 * 24)) sent in
  _ <- (if 0 <? sent_cleaned then _save_cache sent_articles new_sent
        else ret tt) ;;
  let cleaned :=
    if 0 <? sent_cleaned then cleaned + sent_cleaned else cleaned in
  ret cleaned.

(** The three counts of the statistics (the directory name is a
    constant of the instance). *)
Definition get_cache_stats : M (Z * Z * Z) :=
  articles <- _load_cache articles_cache ;;
  analysis <- _load_cache analysis_cache ;;
  sent <- _load_cache sent_articles ;;
  ret (Z.of_nat (size articles), Z.of_nat (size analysis),
       Z.of_nat (size sent)).

Definition clear_cache : M unit :=
  _ <- (present <- exists_ articles_cache ;;
        if present then unlink articles_cache else ret tt) ;;
  _ <- (present <- exists_ analysis_cache ;;
        if present then unlink analysis_cache else ret tt) ;;
  present <- exists_ sent_articles ;;
  if present then unlink sent_articles else ret tt.

End CacheManager.

(** ** [_load_cache] on every answer of the operating system

    [_load_cache] is where the class defends itself against what it finds
    on disk. Here it is without the premises of [CacheManager]: one case
    for each way [Path.exists], [open] and [json.load] can go, the value
    loaded being any Python value, of a type [V] with its empty dict. *)

Module Storage.

(** What is found at a path.
    - [StatFails]: [os.stat] fails with an error other than [ENOENT],
      [ENOTDIR], [EBADF] and [ELOOP], the four that [Path.exists] takes
      for "no such file"; for instance [EACCES], in a directory the
      process may not search.
    - [NoSuchFile]: [os.stat] fails with one of those four.
    - [OpenFails]: the path exists and [open(cache_file, 'r')] raises (a
      directory, a file the process may not read, a file removed in the
      meantime).
    - [LoadFails]: the file opens and [json.load] raises (bytes that are
      not UTF-8 or not JSON, nesting too deep).
    - [Loads v]: [json.load] returns [v], an object or not. *)
Inductive found (V : Type) : Type :=
  | StatFails
  | NoSuchFile
  | OpenFails
  | LoadFails
  | Loads (v : V).
Arguments StatFails {V}.
Arguments NoSuchFile {V}.
Arguments OpenFails {V}.
Arguments LoadFails {V}.
Arguments Loads {V} v.

(** [cache_file.exists()]: [Path.exists] re-raises what [os.stat] raised
    unless it is one of the four errors above. *)
Definition exists_ {V} (cache_file : found V) : result bool :=
  match cache_file with
  | StatFails => Raise OSError
  | NoSuchFile => Ok false
  | OpenFails | LoadFails | Loads _ => Ok true
  end.

(** [with open(cache_file, 'r') as f: json.load(f)] *)
Definition json_load {V} (cache_file : found V) : result V :=
  match cache_file with
  | StatFails | OpenFails => Raise OSError
  | NoSuchFile => Raise FileNotFoundError
  | LoadFails => Raise JSONDecodeError
  | Loads v => Ok v
  end.

(** The call of [exists] is outside the [try]; what it raises leaves
    [_load_cache]. *)
Definition _load_cache {V} `{Empty V} (cache_file : found V) : result V :=
  match exists_ cache_file with
  | Raise e => Raise e
  | Ok true =>
      match json_load cache_file with
      | Ok data => Ok data
      | Raise _ => Ok ∅
      end
  | Ok false => Ok ∅
  end.

(** A path with what [Path.unlink] does to it: [unlinks] is false in a
    directory the process may not write, and for a directory. *)
Record node (V : Type) : Type := mkNode {
  at_path : found V;
  unlinks : bool
}.
Arguments mkNode {V} at_path unlinks.
Arguments at_path {V} n.
Arguments unlinks {V} n.

(** [cache_file.unlink()] *)
Definition unlink {V} (cache_file : node V) : result unit * node V :=
  if unlinks cache_file
  then (Ok tt, mkNode NoSuchFile (unlinks cache_file))
  else (Raise OSError, cache_file).

(** [clear_cache], over the list of its three paths; nothing catches what
    [exists] or [unlink] raises. *)
Fixpoint clear_cache {V} (cache_files : list (node V))
  : result unit * list (node V) :=
  match cache_files with
  | [] => (Ok tt, [])
  | cache_file :: rest =>
      match exists_ (at_path cache_file) with
      | Raise e => (Raise e, cache_file :: rest)
      | Ok false =>
          let '(r, rest) := clear_cache rest in (r, cache_file :: rest)
      | Ok true =>
          match unlink cache_file with
          | (Ok _, cache_file) =>
              let '(r, rest) := clear_cache rest in (r, cache_file :: rest)
          | (Raise e, cache_file) => (Raise e, cache_file :: rest)
          end
      end
  end.

(** A path that [clear_cache] gets past: [exists] answers, and the file is
    not there or can be removed. *)
Definition clears {V} (cache_file : node V) : Prop :=
  at_path cache_file = NoSuchFile
  \/ (at_path cache_file <> StatFails /\ unlinks cache_file = true).

(** The same path with nothing at it. *)
Definition cleared {V} (cache_file : node V) : node V :=
  mkNode NoSuchFile (unlinks cache_file).

(** The three cases of [file] among those of [found]. *)
Definition of_file {E} (f : file E) : found (gmap string E) :=
  match f with
  | Absent => NoSuchFile
  | Corrupt => LoadFails
  | Stored data => Loads data
  end.

End Storage.


(** ** Vocabulary of the specification *)

Module Spec.
Import Datetime CacheManager.

(** The mapping a file holds for its readers: empty unless it parses. *)
Definition stored {E} (f : file E) : gmap string E :=
  match f with
  | Stored data => data
  | Absent | Corrupt => ∅
  end.

(** The sent-article ledger of a disk. *)
Definition ledger (d : disk) : gmap string SentEntry :=
  stored (sent_articles_json d).

Definition has_url (a : Dict) : Prop := is_Some (a !! "url").

(** An article whose [url] is not a key of the ledger. *)
Definition unsent (sent : gmap string SentEntry) (a : Dict) : bool :=
  match a !! "url" with
  | Some url => bool_decide (url ∉ dom sent)
  | None => false
  end.

(** The URLs of a list of articles, in order. *)
Definition urls (articles : list Dict) : list string :=
  omap (fun a => a !! "url") articles.

(** Same calendar day. *)
Definition same_day (t1 t2 : datetime) : Prop := toordinal t1 = toordinal t2.

(** A record that [_is_expired] keeps under a window of [hours]. *)
Definition survives {E} (now : datetime) (stamp : E -> string) (hours : Z)
  : string * E -> Prop :=
  fun kv => _is_expired now (stamp kv.2) hours = false.

#[global] Instance survives_dec {E} now (stamp : E -> string) hours kv :
  Decision (survives now stamp hours kv) :=
  bool_eq_dec _ false.

(** How many entries of [before] are gone from [after]. *)
Definition removed {E} (before after : gmap string E) : Z :=
  Z.of_nat (size before) - Z.of_nat (size after).

(** The instant at which a record stamped [timestamp] leaves a window of
    [hours], when both the stamp and that instant are naive datetimes. *)
Definition deadline (timestamp : string) (hours : Z) : option datetime :=
  match fromisoformat timestamp with
  | Some (Naive t) => add_hours t hours
  | _ => None
  end.

End Spec.

(** ** Sample data *)

Module Examples.
Import Datetime CacheManager.

(** 2024-01-15T10:30:00 *)
Definition t0 : datetime :=
  738899 * US_PER_DAY + 10 * US_PER_HOUR + 30 * US_PER_MINUTE.

Definition a1 : Dict := {[ "url" := "u1"; "title" := "first" ]}.
Definition a2 : Dict := {[ "url" := "u2"; "title" := "second" ]}.
Definition a3 : Dict := {[ "url" := "u3" ]}.
Definition no_url : Dict := {[ "title" := "untitled" ]}.
Definition empty_url : Dict := {[ "url" := ""; "title" := "guid-less" ]}.

Definition summary : Dict := {[ "sentiment" := "NEUTRAL" ]}.

(** No cache file yet, and one that does not parse. *)
Definition fresh_disk : disk := mkDisk Absent Corrupt Absent.

(** [u1] was sent on 2024-01-14. *)
Definition sent_u1 : disk :=
  mkDisk Absent Absent
    (Stored {[ "u1" := mkSentEntry "Crypto" "2024-01-14T09:00:00" ]}).

(** One fetch record written at [t0] under the key of
    ["Crypto_10_2024-01-15"]. *)
Definition one_fetch : disk :=
  mkDisk
    (Stored {[ "8a456c72e541c6579f8865eec83ea380"
               := mkArticleEntry "Crypto" "2024-01-15T10:30:00" [a1; a2] ]})
    Absent Absent.

(** Two batches with the URLs ["ab"], ["c"] and ["a"], ["bc"]. *)
Definition batch_ab_c : list Dict := [ {[ "url" := "ab" ]}; {[ "url" := "c" ]} ].
Definition batch_a_bc : list Dict := [ {[ "url" := "a" ]}; {[ "url" := "bc" ]} ].

End Examples.

(** ** Python strings by code point *)

Module PyStr.

Definition NL : string := String "010"%char "".

(** A UTF-8 continuation byte, [10xxxxxx]. *)
Definition is_continuation (c : ascii) : bool :=
  let n := Z.of_N (N_of_ascii c) in (128 <=? n) && (n <? 192).

(** [len(s)]: the number of code points. *)
Fixpoint len (s : string) : Z :=
  match s with
  | EmptyString => 0
  | String c s' => (if is_continuation c then 0 else 1) + len s'
  end.

(** [s.split('\n')] *)
Fixpoint split_lines (s : string) : list string :=
  match s with
  | EmptyString => [""]
  | String c s' =>
      if Ascii.eqb c "010" then "" :: split_lines s'
      else match split_lines s' with
           | line :: lines => String c line :: lines
           | [] => [String c ""]
           end
  end.

(** [s[:n]] for [n >= 0]: the first [n] code points. *)
Fixpoint take_chars (n : nat) (s : string) : string :=
  match s with
  | EmptyString => ""
  | String c s' =>
      if is_continuation c then String c (take_chars n s')
      else match n with
           | O => ""
           | S n' => String c (take_chars n' s')
           end
  end.

End PyStr.

(** ** [class NewsBot] (src/discord_bot.py) *)

Module DiscordBot.
Import PyStr.

(** One turn of the loop of [_split_message]. *)
Definition _split_message_step (max_length : Z)
    (state : list string * string) (line : string) : list string * string :=
  let '(chunks, current_chunk) := state in
  if max_length <? len current_chunk + len line + 1
  then (chunks ++ [current_chunk], line +:+ NL)
  else (chunks, current_chunk +:+ line +:+ NL).

Definition _split_message (content : string) (max_length : Z) : list string :=
  let '(chunks, current_chunk) :=
    foldl (_split_message_step max_length) ([], "") (split_lines content) in
  if String.eqb current_chunk "" then chunks else chunks ++ [current_chunk].

(** [await channel.send(chunk)] for each chunk in turn, until one raises:
    what was delivered, and whether all of it was. [send i text] tells
    whether the [i]-th call of [channel.send], with [text], returns. *)
Fixpoint send_all (send : nat -> string -> bool) (i : nat)
    (chunks : list string) : list string * bool :=
  match chunks with
  | [] => ([], true)
  | chunk :: rest =>
      if send i chunk
      then let '(delivered, ok) := send_all send (S i) rest in
           (chunk :: delivered, ok)
      else ([], false)
  end.

(** [send_message]: the messages delivered to the channel and the boolean
    returned. [channel] is [None] when [get_channel] finds no channel; every
    exception of [channel.send] is caught and answered with [False]. *)
Definition send_message (channel : option (nat -> string -> bool))
    (content : string) : list string * bool :=
  match channel with
  | None => ([], false)
  | Some send =>
      if 2000 <? len content
      then send_all send 0 (_split_message content 2000)
      else send_all send 0 [content]
  end.

End DiscordBot.

(** ** [class NewsFetcher] (src/news_fetcher.py) *)

Module NewsFetcher.
Import Datetime CacheManager PyStr.

(** [l[:n]] *)
Definition slice_to {A} (n : Z) (l : list A) : list A :=
  if 0 <=? n then take (Z.to_nat n) l
  else take (length l - Z.to_nat (- n)) l.

(** [t.strftime('%Y-%m-%d %H:%M:%S')] *)
Definition strftime_YmdHMS (t : datetime) : string :=
  strftime_Ymd t +:+ " " +:+ zfill 2 (hour t) +:+ ":" +:+ zfill 2 (minute t)
  +:+ ":" +:+ zfill 2 (second t).

(** *** NewsAPI.ai

    One entry of [data['articles']['results']], with the fields the code
    reads; a field is [None] when the key is missing. [ni_source] is the
    [title] of the [source] object, when there is such an object. The
    fields have the types NewsAPI.ai documents: strings, and an object for
    [source]. *)
Record NewsItem : Type := mkNewsItem {
  ni_title : option string;
  ni_body : option string;
  ni_description : option string;
  ni_url : option string;
  ni_source : option (option string);
  ni_dateTime : option string;
  ni_date : option string
}.

(** What one [requests.get] of [fetch_interstellar_news] leads to:
    [NoResults] when the request or [response.json()] raises, the status is
    not 200, or the body has no [articles.results]; the results
    otherwise. *)
Inductive newsapi_response : Type :=
  | NoResults
  | Results (results : list NewsItem).

Definition search_queries : list string :=
  ["interstellar object"; "interstellar visitor"; "3I/ATLAS";
   "interstellar comet"].

(** The dict appended to [all_articles]. *)
Definition _interstellar_article (article : NewsItem) (url : string) : Dict :=
  {[ "title" := default "No title" (ni_title article);
     "description" :=
       take_chars 500
         (default (default "No description" (ni_description article))
                  (ni_body article));
     "url" := url;
     "source" := match ni_source article with
                 | Some source => default "Unknown" source
                 | None => "Unknown"
                 end;
     "published_at" := default (default "" (ni_date article))
                               (ni_dateTime article);
     "topic" := "Interstellar Object 3I/ATLAS" ]}.

(** The loop over the results of one query, with its [break]. *)
Fixpoint _collect_results (max_articles : Z) (results : list NewsItem)
    (all_articles : list Dict) (seen_urls : gset string)
  : list Dict * gset string :=
  match results with
  | [] => (all_articles, seen_urls)
  | article :: rest =>
      let url := default "" (ni_url article) in
      if negb (String.eqb url "") && negb (bool_decide (url ∈ seen_urls))
      then
        let seen_urls := seen_urls ∪ {[ url ]} in
        let all_articles :=
          all_articles ++ [_interstellar_article article url] in
        if max_articles <=? Z.of_nat (length all_articles)
        then (all_articles, seen_urls)
        else _collect_results max_articles rest all_articles seen_urls
      else _collect_results max_articles rest all_articles seen_urls
  end.

(** The loop over the search queries; [http query] is what the request for
    [query] leads to. *)
Fixpoint _run_queries (http : string -> newsapi_response) (max_articles : Z)
    (queries : list string) (all_articles : list Dict)
    (seen_urls : gset string) : list Dict :=
  match queries with
  | [] => all_articles
  | query :: rest =>
      if max_articles <=? Z.of_nat (length all_articles) then all_articles
      else
        match http query with
        | NoResults =>
            _run_queries http max_articles rest all_articles seen_urls
        | Results results =>
            let '(all_articles, seen_urls) :=
              _collect_results max_articles results all_articles seen_urls in
            _run_queries http max_articles rest all_articles seen_urls
        end
  end.

Definition _get_fallback_interstellar_news (now : datetime) : list Dict :=
  [ {[ "title" := "Interstellar Comet 3I/ATLAS: Latest Observations";
       "description" := "Recent observations of interstellar object 3I/ATLAS reveal fascinating details about its composition and trajectory through our solar system.";
       "url" := "https://example.com/interstellar-news";
       "source" := "Space News Network";
       "published_at" := strftime_YmdHMS now;
       "topic" := "Interstellar Object 3I/ATLAS" ]} ].

(** [now] is the clock at the cache lookup, [later] the clock once the
    requests are over. *)
Definition fetch_interstellar_news (use_cache : bool)
    (http : string -> newsapi_response) (now later : datetime)
    (max_articles : Z) : M (list Dict) :=
  cached <- (if use_cache
             then get_cached_articles now "Interstellar" max_articles
             else ret None) ;;
  match cached with
  | Some (article :: rest) => ret (article :: rest)
  | Some [] | None =>
      let all_articles :=
        _run_queries http max_articles search_queries [] ∅ in
      match all_articles with
      | _ :: _ =>
          let articles := slice_to max_articles all_articles in
          _ <- (if use_cache
                then cache_articles later "Interstellar" max_articles articles
                else ret tt) ;;
          ret articles
      | [] => ret (_get_fallback_interstellar_news later)
      end
  end.

(** *** CryptoCompare

    One entry of [data['Data']] and the body of the response. *)
Record CryptoItem : Type := mkCryptoItem {
  ci_title : option string;
  ci_body : option string;
  ci_url : option string;
  ci_guid : option string;
  ci_source : option string;
  ci_published_on : option Z;
  ci_categories : option string
}.

Record CryptoData : Type := mkCryptoData {
  cd_Type : option Z;
  cd_Data : option (list CryptoItem)
}.

(** [RequestException] stands for an exception of the class
    [requests.exceptions.RequestException] raised by [requests.get],
    [raise_for_status] or [response.json]; [Json data] for a body that is a
    JSON object, whose [Data], when present, is a list of objects with
    string fields and an integer [published_on]. *)
Inductive crypto_response : Type :=
  | RequestException
  | Json (data : CryptoData).

(** What [fetch_crypto_news] can raise: an error of the cache, or the
    error of [datetime.fromtimestamp] on a timestamp the platform cannot
    convert. *)
Inductive fetch_exn : Type :=
  | CacheError (e : exn)
  | TimestampError (published_on : Z).

Inductive fetched (A : Type) : Type :=
  | Returned (a : A)
  | Raised (e : fetch_exn).
Arguments Returned {A} a.
Arguments Raised {A} e.

Definition _get_fallback_crypto_news (now : datetime) : list Dict :=
  [ {[ "title" := "Crypto Markets Show Volatility";
       "description" := "Major cryptocurrencies experience price fluctuations as market sentiment shifts amid regulatory developments.";
       "url" := "https://example.com/crypto-news";
       "source" := "Crypto News";
       "published_at" := strftime_YmdHMS now;
       "categories" := "Market Analysis";
       "topic" := "Crypto Markets" ]} ].

Section Crypto.

(** [datetime.fromtimestamp]: the local time of a POSIX timestamp, as the
    platform and its time zone give it; [None] when it raises. *)
Variable fromtimestamp : Z -> option datetime.

(** The dict appended to [articles]. *)
Definition _crypto_article (item : CryptoItem) : fetch_exn + Dict :=
  let published_on := default 0 (ci_published_on item) in
  match fromtimestamp published_on with
  | None => inl (TimestampError published_on)
  | Some published =>
      inr {[ "title" := default "No title" (ci_title item);
             "description" :=
               take_chars 500 (default "No description" (ci_body item));
             "url" := default (default "" (ci_guid item)) (ci_url item);
             "source" := default "Unknown" (ci_source item);
             "published_at" := strftime_YmdHMS published;
             "categories" := default "" (ci_categories item);
             "topic" := "Crypto Markets" ]}
  end.

(** [for item in items: articles.append(...)] *)
Fixpoint _crypto_articles (items : list CryptoItem)
  : fetch_exn + list Dict :=
  match items with
  | [] => inr []
  | item :: rest =>
      match _crypto_article item with
      | inl e => inl e
      | inr article =>
          match _crypto_articles rest with
          | inl e => inl e
          | inr articles => inr (article :: articles)
          end
      end
  end.

(** Runs a cache operation inside the fetcher. *)
Definition from_cache {A} (r : result A * disk) : fetched A * disk :=
  match r with
  | (Ok a, d) => (Returned a, d)
  | (Raise e, d) => (Raised (CacheError e), d)
  end.

Definition fetch_crypto_news (use_cache : bool) (http : crypto_response)
    (now later : datetime) (max_articles : Z) (d : disk)
  : fetched (list Dict) * disk :=
  match from_cache ((if use_cache
                     then get_cached_articles now "Crypto" max_articles
                     else ret None) d) with
  | (Raised e, d) => (Raised e, d)
  | (Returned (Some (article :: rest)), d) => (Returned (article :: rest), d)
  | (Returned _, d) =>
      match http with
      | RequestException => (Returned (_get_fallback_crypto_news later), d)
      | Json data =>
          if bool_decide (cd_Type data = Some 100)
          then
            match cd_Data data with
            | Some items =>
                match _crypto_articles (slice_to max_articles items) with
                | inl e => (Raised e, d)
                | inr articles =>
                    match from_cache
                            ((if use_cache
                              then cache_articles later "Crypto" max_articles
                                     articles
                              else ret tt) d) with
                    | (Raised e, d) => (Raised e, d)
                    | (Returned _, d) => (Returned articles, d)
                    end
                end
            | None => (Returned (_get_fallback_crypto_news later), d)
            end
          else (Returned (_get_fallback_crypto_news later), d)
      end
  end.

End Crypto.

End NewsFetcher.

(** ** Vocabulary for the fetchers *)

Module FetchSpec.
Import Datetime CacheManager Spec NewsFetcher.

(** An article with a non-empty [url]. *)
Definition has_real_url (a : Dict) : Prop :=
  exists url, a !! "url" = Some url /\ url <> "".

(** What the two loops keep true of [all_articles] and [seen_urls]. *)
Definition collected (max_articles : Z) (all_articles : list Dict)
    (seen_urls : gset string) : Prop :=
  Forall has_real_url all_articles
  /\ NoDup (urls all_articles)
  /\ (forall url, url ∈ urls all_articles -> url ∈ seen_urls)
  /\ Z.of_nat (length all_articles) <= Z.max 0 max_articles.

(** The result of [get_cached_articles] that [fetch_*] acts on. *)
Definition cache_hit (use_cache : bool) now topic max_articles d
  : option (list Dict) :=
  if use_cache
  then match stored (articles_cache_json d)
               !! _generate_cache_key now topic max_articles with
       | Some entry =>
           if _is_expired now (ae_timestamp entry) article_cache_expiry
           then None else Some (ae_articles entry)
       | None => None
       end
  else None.

(** The [url] that [fetch_crypto_news] gives an item: its [url], else its
    [guid], else the empty string. *)
Definition item_url (item : CryptoItem) : string :=
  default (default "" (ci_guid item)) (ci_url item).

(** The timestamp of an item converts to a local time. *)
Definition converts (fromtimestamp : Z -> option datetime)
    (item : CryptoItem) : Prop :=
  is_Some (fromtimestamp (default 0 (ci_published_on item))).

(** [datetime.fromtimestamp] on a platform whose local time is UTC:
    1970-01-01 is day 719163 of the calendar. *)
Definition utc_fromtimestamp (ts : Z) : option datetime :=
  let t := 719162 * US_PER_DAY + ts * US_PER_SECOND in
  if in_range t then Some t else None.

(** Two items of a CryptoCompare response: one with a [url], one with
    neither [url] nor [guid]; and one whose timestamp is out of range. *)
Definition item_with_url : CryptoItem :=
  mkCryptoItem (Some "BTC up") (Some "text") (Some "https://c.example/1")
    (Some "guid-1") (Some "cc") (Some 1705314600) None.
Definition item_without_url : CryptoItem :=
  mkCryptoItem (Some "ETH down") None None None None None None.
Definition item_bad_time : CryptoItem :=
  mkCryptoItem (Some "late") None (Some "https://c.example/3") None None
    (Some 999999999999999) None.

End FetchSpec.

(** * Facts about the library model *)

Module DatetimeFacts.
Import Datetime.

Lemma _is_leap_true y :
  _is_leap y = true <-> y mod 4 = 0 /\ (y mod 100 <> 0 \/ y mod 400 = 0).
Proof.
  unfold _is_leap.
  rewrite andb_true_iff, orb_true_iff, negb_true_iff, !Z.eqb_eq, Z.eqb_neq.
  tauto.
Qed.

Lemma _month_day_table :
  forallb (fun k => _month_day_ok false (Z.of_nat k)) (seq 0%nat 365%nat) = true
  /\ forallb (fun k => _month_day_ok true (Z.of_nat k)) (seq 0%nat 366%nat) = true.
Proof. split; vm_compute; reflexivity. Qed.

Lemma _month_day_spec (leapyear : bool) (n : Z) :
  0 <= n < (if leapyear then 366 else 365) ->
  _month_day_ok leapyear n = true.
Proof.
  intros Hn. destruct _month_day_table as [H0 H1].
  rewrite forallb_forall in H0, H1.
  rewrite <- (Z2Nat.id n) by lia.
  destruct leapyear; [apply H1 | apply H0]; apply in_seq; lia.
Qed.

Lemma _ord2ymd_spec n :
  1 <= n <= _MAXORDINAL ->
  exists y m d,
    _ord2ymd n = (y, m, d)
    /\ MINYEAR <= y <= MAXYEAR /\ 1 <= m <= 12
    /\ 1 <= d <= _days_in_month y m
    /\ _ymd2ord y m d = n.
Proof.
  unfold _MAXORDINAL, MINYEAR, MAXYEAR. intros Hn.
  unfold _ord2ymd, _DI400Y, _DI100Y, _DI4Y.
  set (n0 := n - 1).
  set (a := n0 / 146097). set (r1 := n0 mod 146097).
  set (b := r1 / 36524). set (r2 := r1 mod 36524).
  set (c := r2 / 1461). set (r3 := r2 mod 1461).
  set (e := r3 / 365). set (r4 := r3 mod 365).
  assert (Hdec : n0 = 146097 * a + 36524 * b + 1461 * c + 365 * e + r4
                 /\ 0 <= a <= 24 /\ 0 <= b <= 4 /\ 0 <= c <= 24 /\ 0 <= e <= 4
                 /\ 0 <= r4 < 365
                 /\ (b = 4 -> c = 0 /\ e = 0 /\ r4 = 0)
                 /\ (e = 4 -> r4 = 0 /\ c <= 23 /\ b <= 3)
                 /\ (a = 24 -> b * 100 + c * 4 + e + (if (e =? 4) || (b =? 4) then 0 else 1) <= 399)).
  { subst a r1 b r2 c r3 e r4 n0. 
    repeat split; try (Z.div_mod_to_equations; lia).
    intros Ha. destruct (_ || _) eqn:E; Z.div_mod_to_equations; lia. }
  assert (Hnn : n = n0 + 1) by (subst n0; lia).
  clearbody a b c e r4 n0. clear r1 r2 r3.
  destruct Hdec as (Hn0 & Ha & Hb & Hc & He & Hr & Hb4 & He4 & Ha24).
  destruct ((e =? 4) || (b =? 4)) eqn:E.
  - exists (a * 400 + 1 + b * 100 + c * 4 + e - 1), 12, 31.
    split; [reflexivity|].
    assert (Hleap : _is_leap (a * 400 + 1 + b * 100 + c * 4 + e - 1) = true).
    { apply _is_leap_true. apply orb_true_iff in E.
      rewrite !Z.eqb_eq in E.
      destruct E as [E|E]; [specialize (He4 E) | specialize (Hb4 E)];
        subst; Z.div_mod_to_equations; lia. }
    unfold _days_in_month, _ymd2ord, _days_before_month, _days_before_year.
    rewrite Hleap. cbn [Z.eqb Pos.eqb Z.ltb Z.compare Pos.compare Pos.compare_cont
                        andb _DAYS_IN_MONTH _DAYS_BEFORE_MONTH].
    apply orb_true_iff in E. rewrite !Z.eqb_eq in E.
    repeat split; try lia; Z.div_mod_to_equations; lia.
  - apply orb_false_iff in E. rewrite !Z.eqb_neq in E.
    set (year := a * 400 + 1 + b * 100 + c * 4 + e).
    set (leapyear := (e =? 3) && (negb (c =? 24) || (b =? 3))).
    assert (Hleap : _is_leap year = leapyear).
    { subst leapyear year. destruct (_is_leap _) eqn:EL.
      - apply _is_leap_true in EL. symmetry.
        rewrite andb_true_iff, orb_true_iff, negb_true_iff, !Z.eqb_eq, Z.eqb_neq.
        Z.div_mod_to_equations. lia.
      - symmetry. apply not_true_is_false. intros HL.
        rewrite andb_true_iff, orb_true_iff, negb_true_iff, !Z.eqb_eq, Z.eqb_neq in HL.
        assert (EL' : _is_leap (a * 400 + 1 + b * 100 + c * 4 + e) = true);
          [|congruence].
        apply _is_leap_true. Z.div_mod_to_equations. lia. }
    pose proof (_month_day_spec leapyear r4) as Hmd.
    unfold _month_day_ok in Hmd.
    destruct (_month_day leapyear r4) as [m d].
    exists year, m, d. split; [reflexivity|].
    rewrite !andb_true_iff, !Z.leb_le, Z.eqb_eq in Hmd.
    destruct Hmd as ((((Hm1 & Hm12) & Hd1) & Hd) & Hsum);
      [destruct leapyear; lia|].
    unfold _days_in_month, _ymd2ord, _days_before_month, _days_before_year.
    rewrite Hleap.
    assert (Hdim : (if (m =? 2) && leapyear then 29 else _DAYS_IN_MONTH m)
                   = _DAYS_IN_MONTH m + (if (m =? 2) && leapyear then 1 else 0)).
    { destruct (m =? 2) eqn:Em; [apply Z.eqb_eq in Em; subst m|];
        destruct leapyear; simpl; lia. }
    rewrite Hdim. subst year.
    repeat split; try lia; Z.div_mod_to_equations; lia.
Qed.

(** Strings *)

Lemma app_String c s r : String c s +:+ r = String c (s +:+ r).
Proof. reflexivity. Qed.

Lemma app_empty_l r : "" +:+ r = r.
Proof. reflexivity. Qed.

Lemma app_empty_r s : s +:+ "" = s.
Proof. induction s as [|c s IH]; [reflexivity|]. by rewrite app_String, IH. Qed.

Lemma app_assoc_string s1 s2 s3 : (s1 +:+ s2) +:+ s3 = s1 +:+ (s2 +:+ s3).
Proof.
  induction s1 as [|c s1 IH]; [reflexivity|]. by rewrite !app_String, IH.
Qed.

(** Decimal fields are read back *)

Lemma digit_val_char d : 0 <= d <= 9 -> digit_val (digit_char d) = Some d.
Proof.
  intros Hd.
  assert (d = 0 \/ d = 1 \/ d = 2 \/ d = 3 \/ d = 4 \/ d = 5 \/ d = 6
          \/ d = 7 \/ d = 8 \/ d = 9) as Hcases by lia.
  repeat (destruct Hcases as [->|Hcases]; [reflexivity|]).
  by subst d.
Qed.

Lemma digits_zfill_mod w n rest :
  0 <= n -> digits w (zfill w n +:+ rest) = Some (n mod 10 ^ Z.of_nat w, rest).
Proof.
  intros Hn. induction w as [|w IH].
  - simpl. by rewrite Z.mod_1_r.
  - cbn [zfill]. rewrite app_String. cbn [digits].
    rewrite digit_val_char
      by (pose proof (Z.mod_pos_bound (n / 10 ^ Z.of_nat w) 10); lia).
    rewrite IH. simpl. do 2 f_equal.
    rewrite Nat2Z.inj_succ, Z.pow_succ_r by lia.
    rewrite (Z.mul_comm 10), Z.rem_mul_r by lia. lia.
Qed.

Lemma digits_zfill w n rest :
  0 <= n < 10 ^ Z.of_nat w -> digits w (zfill w n +:+ rest) = Some (n, rest).
Proof.
  intros Hn. rewrite digits_zfill_mod by lia. by rewrite Z.mod_small.
Qed.

Lemma expect_String c s : expect c (String c s) = Some s.
Proof. unfold expect. by rewrite Ascii.eqb_refl. Qed.

(** Calendar fields of an instant in range *)

Lemma in_range_spec t : in_range t = true <-> 0 <= t < MAX_MICROS.
Proof. unfold in_range. rewrite andb_true_iff, Z.leb_le, Z.ltb_lt. tauto. Qed.

Lemma toordinal_bounds t :
  in_range t = true -> 1 <= toordinal t <= _MAXORDINAL.
Proof.
  rewrite in_range_spec. unfold toordinal, MAX_MICROS, _MAXORDINAL, US_PER_DAY,
    US_PER_HOUR, US_PER_MINUTE, US_PER_SECOND.
  intros Ht. Z.div_mod_to_equations. lia.
Qed.

(** Digits are neither letters nor punctuation *)

Lemma is_digit_char d : 0 <= d <= 9 -> is_digit (digit_char d) = true.
Proof. intros Hd. unfold is_digit. by rewrite digit_val_char. Qed.

Lemma digit_char_eqb d c :
  0 <= d <= 9 -> is_digit c = false -> Ascii.eqb (digit_char d) c = false.
Proof.
  intros Hd Hc. destruct (Ascii.eqb_spec (digit_char d) c) as [<-|]; [|done].
  by rewrite is_digit_char in Hc.
Qed.

Lemma digit_char_no_marker d :
  0 <= d <= 9 -> is_tz_marker (digit_char d) = false.
Proof.
  intros Hd. unfold is_tz_marker. by rewrite !digit_char_eqb.
Qed.

Lemma mod_10_digit n : 0 <= n mod 10 <= 9.
Proof. pose proof (Z.mod_pos_bound n 10). lia. Qed.

(** Pointers into a string that starts with a decimal field *)

Lemma strlen_String c s : strlen (String c s) = 1 + strlen s.
Proof. unfold strlen. cbn [String.length]. lia. Qed.

Lemma strlen_zfill w n rest :
  strlen (zfill w n +:+ rest) = Z.of_nat w + strlen rest.
Proof.
  induction w as [|w IH]; [reflexivity|].
  cbn [zfill]. rewrite app_String, strlen_String, IH. lia.
Qed.

Lemma advance_next n p : advance n (next p) = next (advance n p).
Proof.
  revert p. induction n as [|n IH]; intros p; [reflexivity|].
  cbn [advance]. by rewrite IH.
Qed.

Lemma advance_zfill w n rest : advance w (zfill w n +:+ rest) = rest.
Proof.
  induction w as [|w IH]; [reflexivity|].
  cbn [zfill advance]. by rewrite app_String.
Qed.

Lemma advance_1_String c p : advance 1 (String c p) = p.
Proof. reflexivity. Qed.

Lemma advance_add a b p : advance (a + b) p = advance b (advance a p).
Proof.
  revert p. induction a as [|a IH]; intros p; [reflexivity|].
  cbn [Nat.add advance]. by rewrite IH.
Qed.

Lemma tzinfo_pos_zfill w n rest :
  tzinfo_pos (zfill w n +:+ rest) = (w + tzinfo_pos rest)%nat.
Proof.
  induction w as [|w IH]; [reflexivity|].
  cbn [zfill]. rewrite app_String. cbn [tzinfo_pos].
  by rewrite digit_char_no_marker, IH by apply mod_10_digit.
Qed.

Lemma digit_run_zfill w n : digit_run (zfill w n) = w.
Proof.
  induction w as [|w IH]; [reflexivity|].
  cbn [zfill digit_run]. by rewrite is_digit_char, IH by apply mod_10_digit.
Qed.

(** The calendar date of an instant in range *)

Lemma _ord2ymd_toordinal t :
  in_range t = true ->
  exists y m d,
    _ord2ymd (toordinal t) = (y, m, d)
    /\ MINYEAR <= y <= MAXYEAR /\ 1 <= m <= 12 /\ 1 <= d <= _days_in_month y m
    /\ d <= 31
    /\ _ymd2ord y m d = toordinal t.
Proof.
  intros Ht.
  destruct (_ord2ymd_spec (toordinal t) (toordinal_bounds t Ht))
    as (y & m & d & Hymd & Hy & Hm & Hd & Hord).
  exists y, m, d. repeat (split; [done|]). split; [|done].
  unfold _days_in_month in Hd. destruct (_ && _); [lia|].
  assert (m = 1 \/ m = 2 \/ m = 3 \/ m = 4 \/ m = 5 \/ m = 6 \/ m = 7
          \/ m = 8 \/ m = 9 \/ m = 10 \/ m = 11 \/ m = 12) as Hc by lia.
  repeat (destruct Hc as [->|Hc]; [simpl in Hd; lia|]). subst m.
  simpl in Hd; lia.
Qed.

(** [YYYY-MM-DD] followed by one ASCII character and a time: the date ends
    at 10, is read back, and the time starts after the separator. *)
Lemma parse_isoformat_date_zfill y m d (sep : ascii) tstr :
  0 <= y < 10000 -> 0 <= m < 100 -> 0 <= d < 100 ->
  Z.of_N (N_of_ascii sep) < 128 ->
  let dtstr :=
    zfill 4 y +:+ "-" +:+ zfill 2 m +:+ "-" +:+ zfill 2 d +:+ String sep tstr in
  strlen dtstr = 11 + strlen tstr
  /\ _find_isoformat_datetime_separator dtstr = Some 10%nat
  /\ parse_isoformat_date dtstr 10 = Some (y, m, d)
  /\ skip_character (advance 10 dtstr) = tstr.
Proof.
  intros Hy Hm Hd Hsep dtstr.
  assert (Hlen : strlen dtstr = 11 + strlen tstr).
  { subst dtstr.
    rewrite strlen_zfill, app_String, app_empty_l, strlen_String, strlen_zfill,
      app_String, app_empty_l, strlen_String, strlen_zfill, strlen_String.
    lia. }
  split; [done|]. split; [|split].
  - unfold _find_isoformat_datetime_separator. rewrite Hlen.
    assert (0 <= strlen tstr) by (unfold strlen; lia).
    rewrite (proj2 (Z.eqb_neq _ 7)) by lia.
    subst dtstr. cbn [zfill]. rewrite !app_String, !app_empty_l.
    cbn [advance next peek].
    change (Ascii.eqb "-" "-") with true. cbv iota.
    by rewrite digit_char_eqb by (apply mod_10_digit || done).
  - unfold parse_isoformat_date. subst dtstr.
    rewrite digits_zfill by (simpl; lia). cbn [mbind option_bind].
    rewrite !app_String, !app_empty_l. cbn [peek next].
    change (Ascii.eqb "-" "-") with true. cbv iota.
    assert (Hpeek : forall w rest,
              Ascii.eqb (peek (zfill (S w) m +:+ rest)) "W" = false).
    { intros w rest. cbn [zfill]. rewrite app_String. cbn [peek].
      by apply digit_char_eqb; [apply mod_10_digit|]. }
    rewrite Hpeek.
    rewrite digits_zfill by (simpl; lia). cbn [mbind option_bind].
    rewrite expect_String. cbn [mbind option_bind].
    rewrite digits_zfill by (simpl; lia). reflexivity.
  - subst dtstr.
    change 10%nat with (4 + (1 + (2 + (1 + 2))))%nat.
    rewrite !advance_add, advance_zfill, app_String, app_empty_l.
    rewrite advance_1_String, advance_zfill, app_String, app_empty_l.
    rewrite advance_1_String, advance_zfill. unfold skip_character.
    cbn [peek advance next].
    by rewrite (proj2 (Z.ltb_lt _ 128)) by done.
Qed.

Lemma mk_datetime_Some y m d hh mm ss us :
  MINYEAR <= y <= MAXYEAR -> 1 <= m <= 12 -> 1 <= d <= _days_in_month y m ->
  0 <= hh < 24 -> 0 <= mm < 60 -> 0 <= ss < 60 -> 0 <= us < 1000000 ->
  mk_datetime y m d hh mm ss us
  = Some ((_ymd2ord y m d - 1) * US_PER_DAY + hh * US_PER_HOUR
          + mm * US_PER_MINUTE + ss * US_PER_SECOND + us).
Proof.
  intros. unfold mk_datetime.
  repeat (rewrite (proj2 (Z.leb_le _ _)) by lia).
  repeat (rewrite (proj2 (Z.ltb_lt _ _)) by lia).
  reflexivity.
Qed.

Lemma time_fields t :
  0 <= t ->
  0 <= hour t < 24 /\ 0 <= minute t < 60 /\ 0 <= second t < 60
  /\ 0 <= microsecond t < 1000000
  /\ (toordinal t - 1) * US_PER_DAY + hour t * US_PER_HOUR
     + minute t * US_PER_MINUTE + second t * US_PER_SECOND + microsecond t = t.
Proof.
  intros Ht.
  unfold hour, minute, second, microsecond, toordinal, US_PER_DAY, US_PER_HOUR,
    US_PER_MINUTE, US_PER_SECOND.
  repeat split; Z.div_mod_to_equations; lia.
Qed.

Lemma length_zfill w n : String.length (zfill w n) = w.
Proof. induction w as [|w IH]; [reflexivity|]. cbn [zfill String.length]. by rewrite IH. Qed.

Lemma advance_length s : advance (String.length s) s = "".
Proof. induction s as [|c s IH]; [reflexivity|]. apply IH. Qed.

(** The fraction [isoformat] prints holds no offset marker. *)
Lemma tzinfo_pos_fraction us :
  let frac := if us =? 0 then "" else "." +:+ zfill 6 us in
  tzinfo_pos frac = String.length frac.
Proof.
  destruct (us =? 0); [reflexivity|].
  cbv zeta. rewrite app_String, app_empty_l. cbn [tzinfo_pos String.length].
  change (is_tz_marker ".") with false. cbv iota. f_equal.
  rewrite <- (app_empty_r (zfill 6 us)) at 1.
  rewrite tzinfo_pos_zfill, length_zfill. cbn [tzinfo_pos]. lia.
Qed.

(** [HH:MM:SS] and [HH:MM:SS.ffffff] are read back as naive times. *)
Lemma parse_isoformat_time_zfill hh mm ss us :
  0 <= hh < 100 -> 0 <= mm < 100 -> 0 <= ss < 100 -> 0 <= us < 1000000 ->
  parse_isoformat_time
    (zfill 2 hh +:+ ":" +:+ zfill 2 mm +:+ ":" +:+ zfill 2 ss
     +:+ (if us =? 0 then "" else "." +:+ zfill 6 us))
  = Some (hh, mm, ss, us, None).
Proof.
  intros Hh Hm Hs Hus. unfold parse_isoformat_time.
  pose proof (tzinfo_pos_fraction us) as Hfrac. cbv zeta in Hfrac.
  set (frac := if us =? 0 then "" else "." +:+ zfill 6 us) in *.
  assert (Hpos : tzinfo_pos (zfill 2 hh +:+ ":" +:+ zfill 2 mm +:+ ":"
                             +:+ zfill 2 ss +:+ frac)
                 = (2 + (1 + (2 + (1 + (2 + String.length frac)))))%nat).
  { rewrite tzinfo_pos_zfill, app_String, app_empty_l. cbn [tzinfo_pos].
    change (is_tz_marker ":") with false. cbv iota.
    rewrite tzinfo_pos_zfill, app_String, app_empty_l. cbn [tzinfo_pos].
    change (is_tz_marker ":") with false. cbv iota.
    by rewrite tzinfo_pos_zfill, Hfrac. }
  rewrite Hpos.
  assert (Htz : advance (2 + (1 + (2 + (1 + (2 + String.length frac)))))
                  (zfill 2 hh +:+ ":" +:+ zfill 2 mm +:+ ":" +:+ zfill 2 ss
                   +:+ frac) = "").
  { rewrite !advance_add, advance_zfill, app_String, app_empty_l.
    rewrite advance_1_String, advance_zfill, app_String, app_empty_l.
    rewrite advance_1_String, advance_zfill. apply advance_length. }
  rewrite Htz.
  assert (Hlen : String.length frac = 0%nat /\ us = 0
                 \/ String.length frac = 7%nat /\ us <> 0
                    /\ frac = String "." (zfill 6 us)).
  { subst frac. destruct (us =? 0) eqn:Eus.
    - left. apply Z.eqb_eq in Eus. done.
    - right. apply Z.eqb_neq in Eus. rewrite app_String, app_empty_l.
      cbn [String.length]. by rewrite length_zfill. }
  clearbody frac. clear Hfrac Hpos Htz.
  unfold parse_hh_mm_ss_ff. cbn [parse_fields].
  rewrite digits_zfill by (simpl; lia). cbn [mbind option_bind].
  rewrite app_String, app_empty_l. cbn [peek next].
  change (Ascii.eqb ":" ":") with true. cbv iota.
  rewrite (proj2 (Z.leb_gt _ 0)) by lia. cbn [andb].
  rewrite digits_zfill by (simpl; lia). cbn [mbind option_bind].
  rewrite app_String, app_empty_l. cbn [peek next].
  rewrite (proj2 (Z.leb_gt _ 0)) by lia.
  change (Ascii.eqb ":" ":") with true. cbn [andb].
  rewrite digits_zfill by (simpl; lia). cbn [mbind option_bind].
  destruct Hlen as [[Hl ->]|(Hl & Hne & ->)]; rewrite Hl.
  - destruct frac; [|discriminate Hl]. reflexivity.
  - cbn [peek next].
    change (Z.of_nat (2 + (1 + (2 + (1 + (2 + 7))))) - 3 - 3 - 3) with 6.
    change (6 <=? 0) with false. change (Ascii.eqb "." ":") with false.
    change (Ascii.eqb "." ".") with true. cbn [andb orb].
    cbn [mbind option_bind].
    unfold parse_fraction. change (Z.to_nat (Z.min 6 6)) with 6%nat.
    rewrite <- (app_empty_r (zfill 6 us)).
    rewrite digits_zfill by (simpl; lia). cbn [mbind option_bind].
    cbn [digit_run advance peek]. change (Ascii.eqb NUL NUL) with true.
    cbn [negb Nat.sub Z.of_nat]. rewrite Z.pow_0_r, Z.mul_1_r. reflexivity.
Qed.

(** [fromisoformat] inverts [isoformat] on every representable instant. *)
Lemma fromisoformat_isoformat t :
  in_range t = true -> fromisoformat (isoformat t) = Some (Naive t).
Proof.
  intros Ht. pose proof Ht as Ht0. apply in_range_spec in Ht0.
  destruct (time_fields t) as (Hh & Hm & Hs & Hus & Hsum); [lia|].
  destruct (_ord2ymd_toordinal t Ht)
    as (y & m & d & Hymd & Hy & Hmo & Hd & Hd31 & Hord).
  unfold MINYEAR, MAXYEAR in Hy.
  set (tstr := zfill 2 (hour t) +:+ ":" +:+ zfill 2 (minute t) +:+ ":"
               +:+ zfill 2 (second t)
               +:+ (if microsecond t =? 0 then ""
                    else "." +:+ zfill 6 (microsecond t))).
  assert (Hiso : isoformat t
                 = zfill 4 y +:+ "-" +:+ zfill 2 m +:+ "-" +:+ zfill 2 d
                   +:+ String "T" tstr).
  { unfold isoformat, isoformat_date. rewrite Hymd.
    by rewrite !app_assoc_string, !app_String, !app_empty_l. }
  destruct (parse_isoformat_date_zfill y m d "T" tstr)
    as (Hlen & Hsep & Hdate & Hskip); [lia..|done|].
  rewrite <- Hiso in Hlen, Hsep, Hdate, Hskip.
  unfold fromisoformat. rewrite Hlen, Hsep.
  assert (0 <= strlen tstr) by (unfold strlen; lia).
  rewrite (proj2 (Z.ltb_ge _ 7)) by lia. cbn [mbind option_bind].
  change (Z.of_nat 10) with 10. rewrite Hdate. cbn [mbind option_bind].
  assert (Htime : parse_isoformat_time tstr
                  = Some (hour t, minute t, second t, microsecond t, None))
    by (apply parse_isoformat_time_zfill; lia).
  assert (strlen tstr <> 0).
  { intros Hz. unfold strlen in Hz.
    destruct tstr; [discriminate Htime|]. cbn [String.length] in Hz. lia. }
  rewrite (proj2 (Z.ltb_lt 10 _)) by lia. rewrite Hskip, Htime.
  cbn [mbind option_bind].
  rewrite mk_datetime_Some by (unfold MINYEAR, MAXYEAR; lia).
  cbn [mbind option_bind]. do 2 f_equal. rewrite Hord. lia.
Qed.

(** Decimal numerals *)

Lemma length_app_string s1 s2 :
  String.length (s1 +:+ s2) = (String.length s1 + String.length s2)%nat.
Proof.
  induction s1 as [|c s1 IH]; [reflexivity|].
  rewrite app_String. cbn [String.length]. by rewrite IH.
Qed.

(** Two strings with tails of one length are equal piece by piece. *)
Lemma app_inj_tail s1 s2 t1 t2 :
  String.length t1 = String.length t2 ->
  s1 +:+ t1 = s2 +:+ t2 -> s1 = s2 /\ t1 = t2.
Proof.
  intros Hlen. revert s2. induction s1 as [|c s1 IH]; intros [|c2 s2] Heq.
  - done.
  - exfalso. apply (f_equal String.length) in Heq.
    rewrite !length_app_string in Heq. cbn [String.length] in Heq. lia.
  - exfalso. apply (f_equal String.length) in Heq.
    rewrite !length_app_string in Heq. cbn [String.length] in Heq. lia.
  - rewrite !app_String in Heq. injection Heq as -> Heq.
    destruct (IH _ Heq) as [-> ->]. done.
Qed.

Lemma string_of_int_inj y1 y2 :
  NilZero.string_of_int (Z.to_int y1) = NilZero.string_of_int (Z.to_int y2) ->
  y1 = y2.
Proof.
  assert (Hisi : forall z, NilZero.int_of_string
                             (NilZero.string_of_int (Z.to_int z))
                           = Some (Z.to_int z)).
  { intros [|p|p]; apply NilZero.isi; simpl; try discriminate;
      intros [= Hnil]; by apply DecimalPos.Unsigned.to_uint_nonnil in Hnil. }
  intros Heq. apply (f_equal NilZero.int_of_string) in Heq.
  rewrite !Hisi in Heq. injection Heq as Heq.
  apply (f_equal Z.of_int) in Heq. by rewrite !DecimalZ.of_to in Heq.
Qed.

(** Month and day are read back from [-MM-DD]. *)
Lemma month_day_inj m1 d1 m2 d2 :
  0 <= m1 < 100 -> 0 <= d1 < 100 -> 0 <= m2 < 100 -> 0 <= d2 < 100 ->
  "-" +:+ zfill 2 m1 +:+ "-" +:+ zfill 2 d1
  = "-" +:+ zfill 2 m2 +:+ "-" +:+ zfill 2 d2 ->
  m1 = m2 /\ d1 = d2.
Proof.
  intros Hm1 Hd1 Hm2 Hd2 Heq.
  set (read := fun s => '(m, s) ← digits 2 (next s);
                        '(d, _) ← digits 2 (next s); Some (m, d)).
  assert (Hread : forall m d, 0 <= m < 100 -> 0 <= d < 100 ->
            read ("-" +:+ zfill 2 m +:+ "-" +:+ zfill 2 d) = Some (m, d)).
  { intros m d Hm Hd. unfold read. rewrite app_String, app_empty_l.
    cbn [next]. rewrite digits_zfill by (simpl; lia).
    cbn [mbind option_bind]. rewrite app_String, app_empty_l. cbn [next].
    rewrite <- (app_empty_r (zfill 2 d)).
    by rewrite digits_zfill by (simpl; lia). }
  pose proof (Hread m1 d1 Hm1 Hd1) as H1. rewrite Heq, Hread in H1 by done.
  by injection H1 as -> ->.
Qed.

(** Instants on different days print different dates. *)
Lemma strftime_Ymd_inj t1 t2 :
  in_range t1 = true -> in_range t2 = true ->
  strftime_Ymd t1 = strftime_Ymd t2 -> toordinal t1 = toordinal t2.
Proof.
  intros H1 H2 Heq.
  destruct (_ord2ymd_toordinal t1 H1)
    as (y1 & m1 & d1 & Hymd1 & _ & Hm1 & Hd1 & Hd31 & Hord1).
  destruct (_ord2ymd_toordinal t2 H2)
    as (y2 & m2 & d2 & Hymd2 & _ & Hm2 & Hd2 & Hd32 & Hord2).
  unfold strftime_Ymd in Heq. rewrite Hymd1, Hymd2 in Heq.
  apply app_inj_tail in Heq as [Hy Htail].
  - apply string_of_int_inj in Hy.
    apply month_day_inj in Htail as [-> ->]; [|lia..]. congruence.
  - rewrite !length_app_string, !length_zfill. reflexivity.
Qed.

End DatetimeFacts.

Module CacheFacts.
Import Datetime Hashlib CacheManager Spec DatetimeFacts.

(** Running the monad *)

Lemma bind_Ok {A B} (m : M A) (f : A -> M B) d a d' :
  m d = (Ok a, d') -> bind m f d = f a d'.
Proof. unfold bind. by intros ->. Qed.

Lemma bind_Raise {A B} (m : M A) (f : A -> M B) d e d' :
  m d = (Raise e, d') -> bind m f d = (Raise e, d').
Proof. unfold bind. by intros ->. Qed.

Lemma _load_cache_spec {E} (cache_file : path E) d :
  _load_cache cache_file d = (Ok (stored (read_file cache_file d)), d).
Proof.
  unfold _load_cache, bind, exists_, try_except, json_load, ret, stored.
  cbv beta. by destruct (read_file cache_file d) eqn:Hfile; rewrite ?Hfile.
Qed.

(** On the three cases of [file], [CacheManager._load_cache] is
    [Storage._load_cache]. *)
Lemma _load_cache_of_file {E} (cache_file : path E) d :
  _load_cache cache_file d
  = (Storage._load_cache (Storage.of_file (read_file cache_file d)), d).
Proof.
  rewrite _load_cache_spec. by destruct (read_file cache_file d).
Qed.

Lemma _save_cache_spec {E} (cache_file : path E) data d :
  _save_cache cache_file data d
  = (Ok tt, write_file cache_file (Stored data) d).
Proof. reflexivity. Qed.

Lemma getitem_Some {V} (m : gmap string V) key v d :
  m !! key = Some v -> getitem m key d = (Ok v, d).
Proof. unfold getitem. by intros ->. Qed.

Lemma getitem_None {V} (m : gmap string V) key d :
  m !! key = None -> getitem m key d = (Raise (KeyError key), d).
Proof. unfold getitem. by intros ->. Qed.

(** The ledger *)

Lemma is_article_sent_spec url d :
  is_article_sent url d = (Ok (bool_decide (url ∈ dom (ledger d))), d).
Proof.
  unfold is_article_sent. erewrite bind_Ok by apply _load_cache_spec.
  unfold ret, ledger. simpl. do 2 f_equal.
  apply bool_decide_ext. by rewrite elem_of_dom.
Qed.

Lemma filter_new_articles_spec articles d :
  Forall has_url articles ->
  filter_new_articles articles d
  = (Ok (List.filter (unsent (ledger d)) articles), d).
Proof.
  unfold filter_new_articles. induction 1 as [|a l [url Hurl] _ IH].
  - reflexivity.
  - cbn [comprehension_if List.filter].
    erewrite bind_Ok; cycle 1.
    { erewrite bind_Ok by by apply getitem_Some.
      erewrite bind_Ok by apply is_article_sent_spec. reflexivity. }
    erewrite bind_Ok by apply IH.
    unfold ret, unsent. rewrite Hurl. do 2 f_equal.
    rewrite <- bool_decide_not. by destruct (bool_decide _).
Qed.

Lemma mark_article_sent_spec now url topic d :
  mark_article_sent now url topic d
  = (Ok tt, write_file sent_articles
              (Stored (<[url := mkSentEntry topic (isoformat now)]> (ledger d)))
              d).
Proof.
  unfold mark_article_sent. erewrite bind_Ok by apply _load_cache_spec.
  apply _save_cache_spec.
Qed.

Lemma mark_articles_sent_spec now articles topic d :
  Forall has_url articles ->
  exists d',
    mark_articles_sent now articles topic d = (Ok tt, d')
    /\ articles_cache_json d' = articles_cache_json d
    /\ analysis_cache_json d' = analysis_cache_json d
    /\ forall url,
         url ∈ dom (ledger d') <->
         url ∈ dom (ledger d)
         \/ exists a, a ∈ articles /\ a !! "url" = Some url.
Proof.
  unfold mark_articles_sent. intros Hall. revert d.
  induction Hall as [|a l [url Hurl] _ IH]; intros d.
  - exists d. repeat split; try done; [auto|].
    intros [?|(a & Ha & _)]; [done|]. by apply elem_of_nil in Ha.
  - destruct (IH (write_file sent_articles
        (Stored (<[url := mkSentEntry topic (isoformat now)]> (ledger d))) d))
      as (d' & Hrun & Hart & Han & Hdom).
    exists d'. cbn [for_each].
    erewrite bind_Ok; cycle 1.
    { erewrite bind_Ok by by apply getitem_Some. apply mark_article_sent_spec. }
    split; [done|]. split; [done|]. split; [done|].
    intros u. rewrite Hdom. unfold ledger at 1. simpl.
    rewrite dom_insert, elem_of_union, elem_of_singleton.
    setoid_rewrite elem_of_cons. split.
    + intros [[->|?]|(b & Hb & Hbu)]; eauto 6.
    + intros [?|(b & [->|Hb] & Hbu)]; eauto 6.
      left; left. congruence.
Qed.

Lemma filter_new_articles_Raise (articles : list Dict) d :
  Exists (fun a : Dict => a !! "url" = None) articles ->
  filter_new_articles articles d = (Raise (KeyError "url"), d).
Proof.
  unfold filter_new_articles.
  induction articles as [|a l IH]; intros Hex; [by apply Exists_nil in Hex|].
  cbn [comprehension_if]. destruct (a !! "url") as [url|] eqn:Hurl.
  - erewrite bind_Ok; cycle 1.
    { erewrite bind_Ok by by apply getitem_Some.
      erewrite bind_Ok by apply is_article_sent_spec. reflexivity. }
    apply Exists_cons in Hex as [?|Hex]; [congruence|].
    by erewrite bind_Raise by by apply IH.
  - erewrite bind_Raise; [done|].
    by erewrite bind_Raise by by apply getitem_None.
Qed.

Lemma mark_articles_sent_Raise now (articles : list Dict) topic d :
  Exists (fun a : Dict => a !! "url" = None) articles ->
  exists d', mark_articles_sent now articles topic d
             = (Raise (KeyError "url"), d').
Proof.
  unfold mark_articles_sent. revert d.
  induction articles as [|a l IH]; intros d Hex;
    [by apply Exists_nil in Hex|].
  cbn [for_each]. destruct (a !! "url") as [url|] eqn:Hurl.
  - apply Exists_cons in Hex as [?|Hex]; [congruence|].
    erewrite bind_Ok; cycle 1.
    { erewrite bind_Ok by by apply getitem_Some. apply mark_article_sent_spec. }
    by apply IH.
  - exists d. erewrite bind_Raise; [done|].
    by erewrite bind_Raise by by apply getitem_None.
Qed.

Lemma filter_none (f : Dict -> bool) (l : list Dict) :
  Forall (fun a => f a = false) l -> List.filter f l = [].
Proof.
  induction 1 as [|a l Ha _ IH]; [done|]. cbn [List.filter]. by rewrite Ha.
Qed.

Lemma Forall_filter_has_url (f : Dict -> bool) (l : list Dict) :
  Forall has_url l -> Forall has_url (List.filter f l).
Proof.
  induction 1 as [|a l Ha _ IH]; [done|]. cbn [List.filter].
  destruct (f a); [by constructor|done].
Qed.

(** Fingerprints *)

Lemma strftime_Ymd_same_day t1 t2 :
  same_day t1 t2 -> strftime_Ymd t1 = strftime_Ymd t2.
Proof. unfold same_day, strftime_Ymd. by intros ->. Qed.

Lemma _cache_key_text_inj now1 now2 topic max_articles :
  _cache_key_text now1 topic max_articles
  = _cache_key_text now2 topic max_articles ->
  strftime_Ymd now1 = strftime_Ymd now2.
Proof.
  unfold _cache_key_text. intros Heq.
  by repeat apply String.app_inj in Heq.
Qed.

Lemma _cache_key_text_by_day now1 now2 topic max_articles :
  in_range now1 = true -> in_range now2 = true ->
  _cache_key_text now1 topic max_articles
  = _cache_key_text now2 topic max_articles
  <-> same_day now1 now2.
Proof.
  intros H1 H2. split.
  - intros Heq. apply strftime_Ymd_inj; [done..|].
    by eapply _cache_key_text_inj.
  - intros Hday. unfold _cache_key_text.
    by rewrite (strftime_Ymd_same_day _ _ Hday).
Qed.

Lemma comprehension_getitem_Ok (articles : list Dict) d :
  Forall has_url articles ->
  comprehension (fun a => getitem a "url") articles d
  = (Ok (urls articles), d).
Proof.
  induction 1 as [|a l [url Hurl] _ IH]; [reflexivity|].
  cbn [comprehension]. erewrite bind_Ok by by apply getitem_Some.
  erewrite bind_Ok by apply IH.
  unfold urls. cbn [omap list_omap]. by rewrite Hurl.
Qed.

Lemma comprehension_getitem_Raise (articles : list Dict) d :
  Exists (fun a : Dict => a !! "url" = None) articles ->
  comprehension (fun a => getitem a "url") articles d
  = (Raise (KeyError "url"), d).
Proof.
  induction articles as [|a l IH]; intros Hex; [by apply Exists_nil in Hex|].
  cbn [comprehension]. destruct (a !! "url") as [url|] eqn:Hurl.
  - erewrite bind_Ok by by apply getitem_Some.
    apply Exists_cons in Hex as [?|Hex]; [congruence|].
    by erewrite bind_Raise by by apply IH.
  - by erewrite bind_Raise by by apply getitem_None.
Qed.

Lemma sorted_Permutation l1 l2 : l1 ≡ₚ l2 -> sorted l1 = sorted l2.
Proof.
  intros Hperm. unfold sorted.
  apply (Sorted_unique String.le); try apply Sorted_merge_sort; try apply _.
  by rewrite !merge_sort_Permutation.
Qed.

Lemma _article_set_key_Ok articles d :
  Forall has_url articles ->
  _article_set_key articles d
  = (Ok (md5_hexdigest (String.concat "" (sorted (urls articles)))), d).
Proof.
  intros Hall. unfold _article_set_key.
  by erewrite bind_Ok by by apply comprehension_getitem_Ok.
Qed.

Lemma _article_set_key_Raise articles d :
  Exists (fun a : Dict => a !! "url" = None) articles ->
  _article_set_key articles d = (Raise (KeyError "url"), d).
Proof.
  intros Hex. unfold _article_set_key.
  by erewrite bind_Raise by by apply comprehension_getitem_Raise.
Qed.

(** Expiry *)

Lemma _is_expired_deadline now timestamp hours :
  _is_expired now timestamp hours
  = match deadline timestamp hours with
    | Some expiry_time => expiry_time <? now
    | None => true
    end.
Proof.
  unfold _is_expired, deadline.
  by destruct (fromisoformat timestamp) as [[?|??]|].
Qed.

(** No comparable deadline (unparseable or timezone-aware stamp, or a sum
    outside the datetime range): the record counts as expired. *)
Lemma _is_expired_fail_safe now timestamp hours :
  deadline timestamp hours = None -> _is_expired now timestamp hours = true.
Proof. intros Hnone. by rewrite _is_expired_deadline, Hnone. Qed.

Lemma deadline_isoformat t hours :
  in_range t = true -> deadline (isoformat t) hours = add_hours t hours.
Proof. intros Ht. unfold deadline. by rewrite fromisoformat_isoformat. Qed.

Lemma add_hours_Some t hours e :
  add_hours t hours = Some e <->
  e = t + hours * US_PER_HOUR /\ 0 <= e < MAX_MICROS.
Proof.
  unfold add_hours. destruct (in_range _) eqn:Hr.
  - apply in_range_spec in Hr. split; [intros [= <-]|intros [-> _]]; done.
  - split; [done|]. intros [-> Hr']. apply in_range_spec in Hr'. congruence.
Qed.

(** A record inside a short window is inside every longer one that ends
    on a representable instant. *)
Lemma _is_expired_mono now timestamp h1 h2 :
  h1 <= h2 -> is_Some (deadline timestamp h2) ->
  _is_expired now timestamp h1 = false ->
  _is_expired now timestamp h2 = false.
Proof.
  intros Hh [e2 He2]. rewrite !_is_expired_deadline, He2.
  destruct (deadline timestamp h1) as [e1|] eqn:He1; [|done].
  unfold deadline in He1, He2.
  destruct (fromisoformat timestamp) as [[t|??]|]; try done.
  apply add_hours_Some in He1 as [-> _]. apply add_hours_Some in He2 as [-> _].
  rewrite !Z.ltb_ge. unfold US_PER_HOUR, US_PER_MINUTE, US_PER_SECOND. lia.
Qed.

(** The sweep loop *)

Lemma sweep_spec {E} (expired : E -> bool) (cache : gmap string E) :
  let keep := fun kv : string * E => expired kv.2 = false in
  sweep expired cache
  = (filter keep cache,
     Z.of_nat (size cache) - Z.of_nat (size (filter keep cache))).
Proof.
  intros keep. unfold sweep.
  apply (map_fold_weak_ind (fun r m =>
    r = (filter keep m, Z.of_nat (size m) - Z.of_nat (size (filter keep m))))).
  - rewrite map_filter_empty, map_size_empty. reflexivity.
  - intros i x m r Hi ->. destruct (expired x) eqn:Hx; cbn [negb].
    + rewrite map_filter_insert_not' by (unfold keep; simpl; congruence).
      rewrite map_size_insert_None by done. f_equal. lia.
    + rewrite map_filter_insert_True by done.
      rewrite (map_size_insert_None i x m) by done.
      rewrite map_size_insert_None by (apply map_lookup_filter_None; by left).
      f_equal. lia.
Qed.

Lemma filter_size_id {E} (P : string * E -> Prop) `{!forall x, Decision (P x)}
    (m : gmap string E) :
  (size m <= size (filter P m))%nat -> filter P m = m.
Proof. apply map_subseteq_size_eq, map_filter_subseteq. Qed.

Lemma sweep_file {E} (cache_file : path E) (stamp : E -> string) now hours
    (f : file E) :
  let cache := stored f in
  let '(new_cache, cleaned) :=
    sweep (fun entry => _is_expired now (stamp entry) hours) cache in
  new_cache = filter (survives now stamp hours) cache
  /\ cleaned = removed cache new_cache
  /\ stored (if 0 <? cleaned then Stored new_cache else f) = new_cache.
Proof.
  intros cache. rewrite sweep_spec.
  change (fun kv : string * E => _is_expired now (stamp kv.2) hours = false)
    with (survives now stamp hours).
  set (new_cache := filter (survives now stamp hours) cache).
  split; [done|]. split; [done|].
  destruct (0 <? _) eqn:Hc; [done|]. apply Z.ltb_ge in Hc.
  symmetry. apply filter_size_id. subst new_cache cache. lia.
Qed.

Lemma cleanup_old_cache_spec now days d :
  exists d',
    cleanup_old_cache now days d
    = (Ok (removed (stored (articles_cache_json d))
                   (stored (articles_cache_json d'))
           + removed (stored (analysis_cache_json d))
                     (stored (analysis_cache_json d'))
           + removed (ledger d) (ledger d')), d')
    /\ stored (articles_cache_json d')
       = filter (survives now ae_timestamp (days * 24))
                (stored (articles_cache_json d))
    /\ stored (analysis_cache_json d')
       = filter (survives now an_timestamp (days * 24))
                (stored (analysis_cache_json d))
    /\ ledger d'
       = filter (survives now se_sent_at (30 * 24)) (ledger d).
Proof.
  unfold cleanup_old_cache, ledger.
  pose proof (sweep_file articles_cache ae_timestamp now (days * 24)
                (articles_cache_json d)) as H1.
  pose proof (sweep_file analysis_cache an_timestamp now (days * 24)
                (analysis_cache_json d)) as H2.
  pose proof (sweep_file sent_articles se_sent_at now (30 * 24)
                (sent_articles_json d)) as H3.
  cbv zeta in H1, H2, H3.
  erewrite bind_Ok by apply _load_cache_spec. cbn [read_file articles_cache].
  destruct (sweep _ (stored (articles_cache_json d))) as [k1 c1].
  destruct H1 as (Hk1 & Hc1 & Hs1). rewrite Z.add_0_l.
  set (d1 := if 0 <? c1 then write_file articles_cache (Stored k1) d else d).
  assert (Hd1 : (if 0 <? c1 then _save_cache articles_cache k1 else ret tt) d
                = (Ok tt, d1)) by (subst d1; by destruct (0 <? c1)).
  erewrite bind_Ok by apply Hd1.
  erewrite bind_Ok by apply _load_cache_spec.
  assert (Hr2 : read_file analysis_cache d1 = analysis_cache_json d)
    by (subst d1; by destruct (0 <? c1)).
  rewrite Hr2.
  destruct (sweep _ (stored (analysis_cache_json d))) as [k2 c2].
  destruct H2 as (Hk2 & Hc2 & Hs2).
  set (d2 := if 0 <? c2 then write_file analysis_cache (Stored k2) d1 else d1).
  assert (Hd2 : (if 0 <? c2 then _save_cache analysis_cache k2 else ret tt) d1
                = (Ok tt, d2)) by (subst d2; by destruct (0 <? c2)).
  erewrite bind_Ok by apply Hd2.
  erewrite bind_Ok by apply _load_cache_spec.
  assert (Hr3 : read_file sent_articles d2 = sent_articles_json d)
    by (subst d2 d1; by destruct (0 <? c2), (0 <? c1)).
  rewrite Hr3.
  destruct (sweep _ (stored (sent_articles_json d))) as [k3 c3].
  destruct H3 as (Hk3 & Hc3 & Hs3).
  set (d3 := if 0 <? c3 then write_file sent_articles (Stored k3) d2 else d2).
  assert (Hd3 : (if 0 <? c3 then _save_cache sent_articles k3 else ret tt) d2
                = (Ok tt, d3)) by (subst d3; by destruct (0 <? c3)).
  erewrite bind_Ok by apply Hd3.
  exists d3.
  assert (Ha : stored (articles_cache_json d3) = k1).
  { rewrite <- Hs1. subst d3 d2 d1.
    by destruct (0 <? c3), (0 <? c2), (0 <? c1). }
  assert (Hb : stored (analysis_cache_json d3) = k2).
  { rewrite <- Hs2. subst d3 d2 d1.
    by destruct (0 <? c3), (0 <? c2), (0 <? c1). }
  assert (Hc : stored (sent_articles_json d3) = k3).
  { rewrite <- Hs3. subst d3 d2 d1.
    by destruct (0 <? c3), (0 <? c2), (0 <? c1). }
  rewrite Ha, Hb, Hc, <- Hk1, <- Hk2, <- Hk3, <- Hc1, <- Hc2, <- Hc3.
  split; [|done]. unfold ret. do 2 f_equal.
  assert (0 <= c2 /\ 0 <= c3) as [? ?].
  { rewrite Hc2, Hc3, Hk2, Hk3. unfold removed.
    split; apply Zle_minus_le_0, inj_le, map_size_filter. }
  destruct (0 <? c2) eqn:E2, (0 <? c3) eqn:E3;
    rewrite ?Z.ltb_lt, ?Z.ltb_ge in *; lia.
Qed.

End CacheFacts.

(** * Test vectors of the library model *)

Module Sanity.
Import Datetime Hashlib CacheManager Examples.

Example md5_empty : md5_hexdigest "" = "d41d8cd98f00b204e9800998ecf8427e".
Proof. vm_compute. reflexivity. Qed.

Example md5_abc : md5_hexdigest "abc" = "900150983cd24fb0d6963f7d28e17f72".
Proof. vm_compute. reflexivity. Qed.

Example isoformat_t0 : isoformat t0 = "2024-01-15T10:30:00".
Proof. vm_compute. reflexivity. Qed.

Example isoformat_microseconds : isoformat (t0 + 5) = "2024-01-15T10:30:00.000005".
Proof. vm_compute. reflexivity. Qed.

Example fromisoformat_aware :
  fromisoformat "2024-01-15T10:30:00+00:00" = Some (Aware t0 0).
Proof. vm_compute. reflexivity. Qed.

Example fromisoformat_bad_day : fromisoformat "2023-02-29T10:30:00" = None.
Proof. vm_compute. reflexivity. Qed.

Example fromisoformat_basic_format :
  fromisoformat "20240115T103000" = Some (Naive t0).
Proof. vm_compute. reflexivity. Qed.

Example fromisoformat_week_date :
  fromisoformat "2024-W03-1 10:30" = Some (Naive t0).
Proof. vm_compute. reflexivity. Qed.

Example fromisoformat_short_fraction :
  fromisoformat "2024-01-15T10:30:00,5" = Some (Naive (t0 + 500000)).
Proof. vm_compute. reflexivity. Qed.

Example fromisoformat_zulu :
  fromisoformat "2024-01-15T10:30:00Z" = Some (Aware t0 0).
Proof. vm_compute. reflexivity. Qed.

Example fromisoformat_offset_seconds :
  fromisoformat "2024-01-15T10:30:00-05:30:15"
  = Some (Aware t0 (- 19815 * US_PER_SECOND)).
Proof. vm_compute. reflexivity. Qed.

Example fromisoformat_no_time : fromisoformat "2024-01-15T" = None.
Proof. vm_compute. reflexivity. Qed.

Example fromisoformat_hour_24 : fromisoformat "2024-01-15T24:00:00" = None.
Proof. vm_compute. reflexivity. Qed.

Example strftime_Ymd_year_999 :
  strftime_Ymd (364512 * US_PER_DAY) = "999-01-01"
  /\ isoformat (364512 * US_PER_DAY) = "0999-01-01T00:00:00".
Proof. split; vm_compute; reflexivity. Qed.

Example _is_expired_aware :
  _is_expired t0 "2024-01-15T10:30:00+00:00" 24 = true.
Proof. vm_compute. reflexivity. Qed.

Example _is_expired_basic_format :
  _is_expired (t0 + US_PER_HOUR) "20240115T103000" 24 = false.
Proof. vm_compute. reflexivity. Qed.

Example _is_expired_overflow :
  _is_expired t0 "9999-12-31T12:00:00" 24 = true.
Proof. vm_compute. reflexivity. Qed.

Example _generate_cache_key_t0 :
  _generate_cache_key t0 "Crypto" 10 = "8a456c72e541c6579f8865eec83ea380".
Proof. vm_compute. reflexivity. Qed.

(** The fetch-cache scenario: miss, put, hit on the same day, miss 25 hours
    later. *)
Example fetch_cache_scenario :
  let put := snd (cache_articles t0 "Crypto" 10 [a1; a2] fresh_disk) in
  fst (get_cached_articles t0 "Crypto" 10 fresh_disk) = Ok None
  /\ fst (get_cached_articles (t0 + US_PER_HOUR) "Crypto" 10 put)
     = Ok (Some [a1; a2])
  /\ fst (get_cached_articles (t0 + 25 * US_PER_HOUR) "Crypto" 10 put)
     = Ok None.
Proof. repeat split; vm_compute; reflexivity. Qed.

(** The ledger scenario: both articles are new, are marked, and only [u3]
    passes afterwards. *)
Example ledger_scenario :
  let marked := snd (mark_articles_sent t0 [a1; a2] "Crypto" fresh_disk) in
  fst (filter_new_articles [a1; a2] fresh_disk) = Ok [a1; a2]
  /\ fst (filter_new_articles [a1; a3] marked) = Ok [a3].
Proof. repeat split; vm_compute; reflexivity. Qed.

End Sanity.

(** * The claims *)

Module Claims.
Import Datetime Hashlib CacheManager Spec Examples DatetimeFacts CacheFacts.

(** C1. For every disk and every list of articles that all have a [url],
    [filter_new_articles] returns exactly the articles whose [url] is not a
    key of the sent-article ledger, in their original order, and leaves the
    disk as it was. *)
Theorem filter_new_articles_unsent (articles : list Dict) d :
  Forall has_url articles ->
  filter_new_articles articles d
  = (Ok (List.filter (unsent (ledger d)) articles), d).
Proof. apply filter_new_articles_spec. Qed.

Lemma filter_new_articles_unsent_witness :
  filter_new_articles [a1; a2; a3] sent_u1 = (Ok [a2; a3], sent_u1).
Proof.
  rewrite (filter_new_articles_unsent [a1; a2; a3] sent_u1).
  - vm_compute. reflexivity.
  - repeat constructor; eexists; vm_compute; reflexivity.
Defined.



(** C3, as the code has it. For a timestamp that parses to the naive
    instant [T] and a window of [W] hours whose end [e = T + W] is a
    representable datetime: [_is_expired] is false whenever the current
    time is at or before [e], in particular at [e - eps], and true whenever
    it is after [e], in particular at [e + eps]. For a timestamp that does
    not parse, and for one that parses to a timezone-aware datetime, it is
    true. *)
Theorem _is_expired_boundary timestamp W :
  (forall T e,
     fromisoformat timestamp = Some (Naive T) -> add_hours T W = Some e ->
     (forall now, now <= e -> _is_expired now timestamp W = false)
     /\ (forall now, e < now -> _is_expired now timestamp W = true)
     /\ (forall eps, 0 < eps ->
           _is_expired (e - eps) timestamp W = false
           /\ _is_expired (e + eps) timestamp W = true))
  /\ (fromisoformat timestamp = None ->
      forall now, _is_expired now timestamp W = true)
  /\ (forall local utcoffset,
        fromisoformat timestamp = Some (Aware local utcoffset) ->
        forall now, _is_expired now timestamp W = true).
Proof.
  split; [|split].
  - intros T e HT He.
    assert (Hexp : forall now, _is_expired now timestamp W = (e <? now)).
    { intros now. unfold _is_expired. by rewrite HT, He. }
    split; [|split].
    + intros now Hnow. rewrite Hexp. by apply Z.ltb_ge.
    + intros now Hnow. rewrite Hexp. by apply Z.ltb_lt.
    + intros eps Heps. rewrite !Hexp. split.
      * apply Z.ltb_ge. lia.
      * apply Z.ltb_lt. lia.
  - intros Hnone now. unfold _is_expired. by rewrite Hnone.
  - intros local utcoffset Haware now. unfold _is_expired. by rewrite Haware.
Qed.

Lemma _is_expired_boundary_witness :
  _is_expired (t0 + 24 * US_PER_HOUR - 1) "2024-01-15T10:30:00" 24 = false
  /\ _is_expired (t0 + 24 * US_PER_HOUR + 1) "2024-01-15T10:30:00" 24 = true
  /\ _is_expired t0 "yesterday" 24 = true
  /\ _is_expired t0 "2024-01-15T10:30:00+02:00" 24 = true.
Proof.
  destruct (_is_expired_boundary "2024-01-15T10:30:00" 24) as [Hparsed _].
  destruct (Hparsed t0 (t0 + 24 * US_PER_HOUR)) as (_ & _ & Heps);
    [vm_compute; reflexivity..|].
  destruct (Heps 1) as [Hbefore Hafter]; [lia|].
  destruct (_is_expired_boundary "yesterday" 24) as (_ & Hgarbled & _).
  destruct (_is_expired_boundary "2024-01-15T10:30:00+02:00" 24)
    as (_ & _ & Haware).
  split; [exact Hbefore|]. split; [exact Hafter|]. split.
  - apply Hgarbled. vm_compute. reflexivity.
  - apply (Haware t0 (2 * US_PER_HOUR)). vm_compute. reflexivity.
Defined.

(** C3 as stated fails. The stamp [2024-01-15T10:30:00+00:00] parses, to a
    timezone-aware datetime [T]; a local clock that reads a month less is
    before [T + 24h] whatever the offset of the local zone is, yet
    comparing the naive [datetime.now()] with an aware datetime raises
    [TypeError] and the bare [except] answers "expired". The same [except]
    answers "expired" one hour after a naive stamp when the window of
    4000000 days ends past year 9999. *)
Lemma _is_expired_before_the_window_ends :
  fromisoformat "2024-01-15T10:30:00+00:00" = Some (Aware t0 0)
  /\ (forall local_utcoffset,
        - US_PER_DAY < local_utcoffset < US_PER_DAY ->
        t0 - 30 * US_PER_DAY - local_utcoffset <= t0 - 0 + 24 * US_PER_HOUR)
  /\ _is_expired (t0 - 30 * US_PER_DAY) "2024-01-15T10:30:00+00:00" 24 = true
  /\ fromisoformat "2024-01-15T10:30:00" = Some (Naive t0)
  /\ t0 + US_PER_HOUR <= t0 + 4000000 * 24 * US_PER_HOUR
  /\ _is_expired (t0 + US_PER_HOUR) "2024-01-15T10:30:00" (4000000 * 24)
     = true.
Proof.
  split; [vm_compute; reflexivity|]. split.
  - unfold US_PER_DAY, US_PER_HOUR, US_PER_MINUTE, US_PER_SECOND. lia.
  - repeat split; vm_compute; congruence.
Qed.

(** C5. For every list of articles that all have a [url] and every
    permutation of it, the article-set key is the same for both, and so
    [get_cached_analysis] and [cache_analysis] behave the same on both. *)
Theorem _article_set_key_permutation (articles articles' : list Dict) d :
  articles ≡ₚ articles' ->
  Forall has_url articles ->
  exists cache_key,
    _article_set_key articles d = (Ok cache_key, d)
    /\ _article_set_key articles' d = (Ok cache_key, d)
    /\ forall now topic analysis,
         get_cached_analysis now articles topic d
         = get_cached_analysis now articles' topic d
         /\ cache_analysis now articles topic analysis d
            = cache_analysis now articles' topic analysis d.
Proof.
  intros Hperm Hall.
  assert (Hall' : Forall has_url articles') by by rewrite <- Hperm.
  assert (Hkey : sorted (urls articles) = sorted (urls articles')).
  { apply sorted_Permutation. unfold urls. by rewrite Hperm. }
  eexists. split; [by apply _article_set_key_Ok|].
  split; [rewrite Hkey; by apply _article_set_key_Ok|].
  intros now topic analysis.
  unfold get_cached_analysis, cache_analysis.
  rewrite !(bind_Ok _ _ _ _ _ (_article_set_key_Ok articles d Hall)).
  rewrite !(bind_Ok _ _ _ _ _ (_article_set_key_Ok articles' d Hall')).
  by rewrite Hkey, (Permutation_length Hperm).
Qed.

Lemma _article_set_key_permutation_witness :
  exists cache_key,
    _article_set_key [a1; a2; a3] fresh_disk = (Ok cache_key, fresh_disk)
    /\ _article_set_key [a2; a1; a3] fresh_disk = (Ok cache_key, fresh_disk).
Proof.
  destruct (_article_set_key_permutation [a1; a2; a3] [a2; a1; a3] fresh_disk)
    as (cache_key & H1 & H2 & _).
  - apply perm_swap.
  - repeat constructor; eexists; vm_compute; reflexivity.
  - exists cache_key. split; [exact H1 | exact H2].
Defined.

(** C6. For every disk and list of articles that all have a [url]: when
    [B] is what [filter_new_articles] returns and [mark_articles_sent B]
    has run, filtering [B] again returns the empty list. *)
Theorem filter_new_articles_after_mark now topic (articles : list Dict) d :
  Forall has_url articles ->
  exists B d2,
    filter_new_articles articles d = (Ok B, d)
    /\ mark_articles_sent now B topic d = (Ok tt, d2)
    /\ filter_new_articles B d2 = (Ok [], d2).
Proof.
  intros Hall.
  set (B := List.filter (unsent (ledger d)) articles).
  assert (HB : Forall has_url B) by by apply Forall_filter_has_url.
  destruct (mark_articles_sent_spec now B topic d HB)
    as (d2 & Hmark & _ & _ & Hdom).
  exists B, d2. split; [by apply filter_new_articles_spec|]. split; [done|].
  rewrite filter_new_articles_spec by done. do 2 f_equal.
  apply filter_none, Forall_forall. intros b Hb.
  destruct (proj1 (Forall_forall _ _) HB b Hb) as [url Hurl].
  unfold unsent. rewrite Hurl. apply bool_decide_eq_false. intros Hnot.
  apply Hnot, Hdom. right. by exists b.
Qed.

Lemma filter_new_articles_after_mark_witness :
  exists d2,
    filter_new_articles [a1; a2; a3] sent_u1 = (Ok [a2; a3], sent_u1)
    /\ mark_articles_sent t0 [a2; a3] "Crypto" sent_u1 = (Ok tt, d2)
    /\ filter_new_articles [a2; a3] d2 = (Ok [], d2).
Proof.
  destruct (filter_new_articles_after_mark t0 "Crypto" [a1; a2; a3] sent_u1)
    as (B & d2 & Hfilter & Hmark & Hagain).
  - repeat constructor; eexists; vm_compute; reflexivity.
  - assert (HB : (Ok B, sent_u1) = (Ok [a2; a3], sent_u1)).
    { rewrite <- Hfilter. vm_compute. reflexivity. }
    injection HB as ->. exists d2. split; [exact Hfilter|].
    split; [exact Hmark | exact Hagain].
Defined.

(** C7. [cleanup_old_cache] does remove a record younger than the freshness
    window: with a retention of 4000000 days, [days * 24] hours being well
    above the 24 of the window, the end of the retention span lies past
    year 9999, the addition in [_is_expired] raises [OverflowError], the
    bare [except] answers "expired", and the record written one hour ago,
    which [_is_expired] keeps under the 24-hour window, is removed; the
    method returns 1 and leaves an empty fetch cache. *)
Lemma cleanup_old_cache_huge_retention_drops_fresh :
  24 <= 4000000 * 24
  /\ stored (articles_cache_json one_fetch)
       !! "8a456c72e541c6579f8865eec83ea380"
     = Some (mkArticleEntry "Crypto" "2024-01-15T10:30:00" [a1; a2])
  /\ _is_expired (t0 + US_PER_HOUR) "2024-01-15T10:30:00" article_cache_expiry
     = false
  /\ cleanup_old_cache (t0 + US_PER_HOUR) 4000000 one_fetch
     = (Ok 1, mkDisk (Stored ∅) Absent Absent).
Proof. split; [lia|]. repeat split; vm_compute; reflexivity. Qed.

(** C8. [_load_cache] does raise. The call of [Path.exists] is outside the
    [try], so when [os.stat] fails with an error that [exists] re-raises (a
    cache directory the process may not search) the error leaves
    [_load_cache]. In every other case the function returns: the empty
    mapping when the file is absent, cannot be opened or does not parse,
    and the value loaded otherwise. [CacheManager._load_cache] is this
    function where [exists] answers and [open] succeeds. *)
Theorem _load_cache_raises_when_exists_raises {V} `{Empty V} :
  Storage._load_cache (V:=V) Storage.StatFails = Raise OSError
  /\ Storage._load_cache (V:=V) Storage.NoSuchFile = Ok ∅
  /\ Storage._load_cache (V:=V) Storage.OpenFails = Ok ∅
  /\ Storage._load_cache (V:=V) Storage.LoadFails = Ok ∅
  /\ (forall v : V, Storage._load_cache (Storage.Loads v) = Ok v)
  /\ (forall E (cache_file : path E) d,
        _load_cache cache_file d
        = (Storage._load_cache (Storage.of_file (read_file cache_file d)),
           d)).
Proof.
  do 5 (split; [reflexivity|]).
  intros E cache_file d. apply _load_cache_of_file.
Qed.

(** C9, as the code has it. An article with no [url] key makes
    [get_cached_analysis], [cache_analysis], [filter_new_articles] and
    [mark_articles_sent] raise [KeyError('url')]; the first three leave the
    disk as it was. *)
Theorem missing_url_raises_KeyError now topic analysis
    (articles : list Dict) d :
  Exists (fun a : Dict => a !! "url" = None) articles ->
  get_cached_analysis now articles topic d = (Raise (KeyError "url"), d)
  /\ cache_analysis now articles topic analysis d
     = (Raise (KeyError "url"), d)
  /\ filter_new_articles articles d = (Raise (KeyError "url"), d)
  /\ exists d', mark_articles_sent now articles topic d
                = (Raise (KeyError "url"), d').
Proof.
  intros Hex. unfold get_cached_analysis, cache_analysis.
  rewrite !(bind_Raise _ _ _ _ _ (_article_set_key_Raise articles d Hex)).
  split; [done|]. split; [done|].
  split; [by apply filter_new_articles_Raise|].
  by apply mark_articles_sent_Raise.
Qed.

Lemma missing_url_raises_KeyError_witness :
  get_cached_analysis t0 [a1; no_url] "Crypto" fresh_disk
  = (Raise (KeyError "url"), fresh_disk)
  /\ filter_new_articles [a1; no_url] fresh_disk
     = (Raise (KeyError "url"), fresh_disk).
Proof.
  destruct (missing_url_raises_KeyError t0 "Crypto" summary [a1; no_url]
              fresh_disk) as (Hget & _ & Hfilter & _).
  - apply Exists_cons_tl, Exists_cons_hd. vm_compute. reflexivity.
  - split; [exact Hget | exact Hfilter].
Defined.

(** C9 as stated fails: an article whose [url] is the empty string raises
    nothing; the fingerprint is the MD5 of the empty string and the ledger
    gets the key [""]. *)
Lemma empty_url_is_accepted :
  _article_set_key [empty_url] fresh_disk
  = (Ok "d41d8cd98f00b204e9800998ecf8427e", fresh_disk)
  /\ get_cached_analysis t0 [empty_url] "Crypto" fresh_disk
     = (Ok None, fresh_disk)
  /\ fst (cache_analysis t0 [empty_url] "Crypto" summary fresh_disk) = Ok tt
  /\ filter_new_articles [empty_url] fresh_disk
     = (Ok [empty_url], fresh_disk)
  /\ mark_articles_sent t0 [empty_url] "Crypto" fresh_disk
     = (Ok tt,
        mkDisk Absent Corrupt
          (Stored {[ "" := mkSentEntry "Crypto" "2024-01-15T10:30:00" ]})).
Proof. repeat split; vm_compute; reflexivity. Qed.

(** C10. There are two article lists with different URLs, ["ab"], ["c"] and
    ["a"], ["bc"], whose analysis-cache key is the same, the sorted URLs
    being joined without a separator; an analysis cached for the first is
    then served for the second. *)
Theorem _article_set_key_collision :
  exists A B : list Dict,
    urls A = ["ab"; "c"] /\ urls B = ["a"; "bc"]
    /\ (forall url, url ∈ urls A -> url ∉ urls B)
    /\ (forall d, _article_set_key A d = _article_set_key B d)
    /\ (forall d,
          _article_set_key A d
          = (Ok "900150983cd24fb0d6963f7d28e17f72", d))
    /\ get_cached_analysis t0 B "Crypto"
         (snd (cache_analysis t0 A "Crypto" summary fresh_disk))
       = (Ok (Some summary),
          snd (cache_analysis t0 A "Crypto" summary fresh_disk)).
Proof.
  exists batch_ab_c, batch_a_bc.
  assert (HA : Forall has_url batch_ab_c)
    by (repeat constructor; eexists; vm_compute; reflexivity).
  assert (HB : Forall has_url batch_a_bc)
    by (repeat constructor; eexists; vm_compute; reflexivity).
  split; [vm_compute; reflexivity|]. split; [vm_compute; reflexivity|].
  split; [|split; [|split]].
  - intros url. change (urls batch_ab_c) with ["ab"; "c"].
    change (urls batch_a_bc) with ["a"; "bc"].
    rewrite !elem_of_cons, !elem_of_nil.
    intros [->|[->|[]]] [?|[?|[]]]; discriminate.
  - intros d. by rewrite !_article_set_key_Ok.
  - intros d. rewrite _article_set_key_Ok by done. do 2 f_equal.
  - vm_compute. reflexivity.
Qed.

End Claims.

(** * Further properties of the cache manager *)

Module CacheMore.
Import Datetime Hashlib CacheManager Spec Examples DatetimeFacts CacheFacts.

(** ** Helper lemmas *)

Lemma get_cached_articles_run now topic max_articles d :
  get_cached_articles now topic max_articles d
  = (Ok (match stored (articles_cache_json d)
                 !! _generate_cache_key now topic max_articles with
         | Some entry =>
             if _is_expired now (ae_timestamp entry) article_cache_expiry
             then None else Some (ae_articles entry)
         | None => None
         end), d).
Proof.
  unfold get_cached_articles. erewrite bind_Ok by apply _load_cache_spec.
  cbn [read_file articles_cache].
  destruct (_ !! _) as [entry|]; [|done]. by destruct (_is_expired _ _ _).
Qed.

Lemma cache_articles_run now topic max_articles articles d :
  cache_articles now topic max_articles articles d
  = (Ok tt,
     mkDisk
       (Stored (<[_generate_cache_key now topic max_articles
                  := mkArticleEntry topic (isoformat now) articles]>
                  (stored (articles_cache_json d))))
       (analysis_cache_json d) (sent_articles_json d)).
Proof.
  unfold cache_articles. erewrite bind_Ok by apply _load_cache_spec.
  reflexivity.
Qed.

Lemma get_cached_analysis_run now (articles : list Dict) topic d :
  Forall has_url articles ->
  get_cached_analysis now articles topic d
  = (Ok (match stored (analysis_cache_json d)
                 !! md5_hexdigest (String.concat "" (sorted (urls articles)))
         with
         | Some entry =>
             if _is_expired now (an_timestamp entry) analysis_cache_expiry
             then None else Some (an_analysis entry)
         | None => None
         end), d).
Proof.
  intros Hall. unfold get_cached_analysis.
  erewrite bind_Ok by by apply _article_set_key_Ok.
  erewrite bind_Ok by apply _load_cache_spec.
  cbn [read_file analysis_cache].
  destruct (_ !! _) as [entry|]; [|done]. by destruct (_is_expired _ _ _).
Qed.

Lemma cache_analysis_run now (articles : list Dict) topic analysis d :
  Forall has_url articles ->
  cache_analysis now articles topic analysis d
  = (Ok tt,
     mkDisk (articles_cache_json d)
       (Stored (<[md5_hexdigest (String.concat "" (sorted (urls articles)))
                  := mkAnalysisEntry topic (isoformat now)
                       (Z.of_nat (length articles)) analysis]>
                  (stored (analysis_cache_json d))))
       (sent_articles_json d)).
Proof.
  intros Hall. unfold cache_analysis.
  erewrite bind_Ok by by apply _article_set_key_Ok.
  erewrite bind_Ok by apply _load_cache_spec.
  reflexivity.
Qed.

Lemma get_cache_stats_run d :
  get_cache_stats d
  = (Ok (Z.of_nat (size (stored (articles_cache_json d))),
         Z.of_nat (size (stored (analysis_cache_json d))),
         Z.of_nat (size (ledger d))), d).
Proof.
  unfold get_cache_stats.
  by rewrite !(bind_Ok _ _ _ _ _ (_load_cache_spec _ d)).
Qed.

(** The window of a record written at a representable instant. *)
Lemma _is_expired_isoformat now t hours e :
  in_range t = true -> add_hours t hours = Some e ->
  _is_expired now (isoformat t) hours = (e <? now).
Proof.
  intros Ht He. by rewrite _is_expired_deadline, deadline_isoformat, He.
Qed.

(** An instant of the same day is less than a day away. *)
Lemma same_day_within_24h now now' :
  same_day now now' -> now' < now + 24 * US_PER_HOUR.
Proof.
  unfold same_day, toordinal, US_PER_DAY, US_PER_HOUR, US_PER_MINUTE,
    US_PER_SECOND.
  intros Hday. Z.div_mod_to_equations. lia.
Qed.

(** ** Storage *)

(** X2. The lookups never write: [get_cached_articles], [get_cached_analysis],
    [is_article_sent], [filter_new_articles] and [get_cache_stats] leave
    the disk exactly as it was, whether they return or raise, and even when
    the entry they find is expired. *)
Theorem lookups_leave_disk now topic max_articles (articles : list Dict)
    url d :
  snd (get_cached_articles now topic max_articles d) = d
  /\ snd (get_cached_analysis now articles topic d) = d
  /\ snd (is_article_sent url d) = d
  /\ snd (filter_new_articles articles d) = d
  /\ snd (get_cache_stats d) = d.
Proof.
  assert (Hurls : Forall has_url articles
                  \/ Exists (fun a : Dict => a !! "url" = None) articles).
  { induction articles as [|a l IH]; [by left|].
    destruct (a !! "url") as [u|] eqn:Hu; [|right; by left].
    destruct IH as [IH|IH]; [left|right; by right].
    constructor; [by exists u|done]. }
  split; [by rewrite get_cached_articles_run|].
  split; [|split; [by rewrite is_article_sent_spec|split]].
  - destruct Hurls as [Hall|Hex].
    + by rewrite get_cached_analysis_run.
    + unfold get_cached_analysis.
      by erewrite bind_Raise by by apply _article_set_key_Raise.
  - destruct Hurls as [Hall|Hex].
    + by rewrite filter_new_articles_spec.
    + by rewrite filter_new_articles_Raise.
  - by rewrite get_cache_stats_run.
Qed.

(** ** The ledger *)

(** X3. After [mark_article_sent url], [is_article_sent] answers true for
    [url] and what it answered before for every other URL; the fetch and
    analysis caches are not touched. *)
Theorem mark_article_sent_then_is_sent now url topic d :
  let d' := snd (mark_article_sent now url topic d) in
  is_article_sent url d' = (Ok true, d')
  /\ (forall other, other <> url ->
        fst (is_article_sent other d') = fst (is_article_sent other d))
  /\ articles_cache_json d' = articles_cache_json d
  /\ analysis_cache_json d' = analysis_cache_json d.
Proof.
  intros d'. subst d'. rewrite mark_article_sent_spec.
  cbn [snd write_file sent_articles]. rewrite !is_article_sent_spec.
  unfold ledger at 1. cbn [sent_articles_json stored fst].
  split; [|split; [|done]].
  - rewrite bool_decide_eq_true_2; [done|].
    rewrite dom_insert. apply elem_of_union_l, elem_of_singleton. done.
  - intros other Hne. rewrite !is_article_sent_spec. cbn [fst]. f_equal.
    apply bool_decide_ext. unfold ledger at 1. cbn [sent_articles_json stored].
    rewrite dom_insert, elem_of_union, elem_of_singleton.
    split; [by intros [?|?]|by right].
Qed.

(** X4. Marking a URL that is already in the ledger replaces its record: the
    topic and [sent_at] of the first delivery are lost (so its 30 days of
    retention start again), and the ledger does not grow; marking a new URL
    makes it grow by one. *)
Theorem mark_article_sent_overwrites now url topic d :
  let d' := snd (mark_article_sent now url topic d) in
  ledger d' !! url = Some (mkSentEntry topic (isoformat now))
  /\ fst (get_cache_stats d')
     = Ok (Z.of_nat (size (stored (articles_cache_json d))),
           Z.of_nat (size (stored (analysis_cache_json d))),
           Z.of_nat (size (ledger d))
           + (if bool_decide (url ∈ dom (ledger d)) then 0 else 1)).
Proof.
  intros d'. subst d'. rewrite mark_article_sent_spec.
  cbn [snd write_file sent_articles]. rewrite get_cache_stats_run.
  set (sent := ledger d). unfold ledger.
  cbn [sent_articles_json articles_cache_json analysis_cache_json stored fst].
  split; [by rewrite lookup_insert_eq|]. do 3 f_equal.
  rewrite map_size_insert.
  destruct (sent !! url) as [old|] eqn:Hold.
  - rewrite bool_decide_eq_true_2 by (apply elem_of_dom; by eexists).
    unfold id. lia.
  - rewrite bool_decide_eq_false_2 by by apply not_elem_of_dom. lia.
Qed.

(** ** The fetch cache *)

(** A record written today is found, and not expired, all day. *)
Lemma cache_articles_hit_all_day now now' topic max_articles
    (articles : list Dict) d :
  in_range now = true ->
  in_range (now + 24 * US_PER_HOUR) = true ->
  same_day now now' ->
  let d1 := snd (cache_articles now topic max_articles articles d) in
  get_cached_articles now' topic max_articles d1 = (Ok (Some articles), d1).
Proof.
  intros Hnow Hend Hday d1. subst d1.
  rewrite cache_articles_run, get_cached_articles_run.
  cbn [snd articles_cache_json stored].
  unfold _generate_cache_key, _cache_key_text.
  rewrite <- (strftime_Ymd_same_day _ _ Hday), lookup_insert_eq.
  cbn [ae_timestamp ae_articles].
  rewrite (_is_expired_isoformat now' now _ (now + 24 * US_PER_HOUR));
    [|done|unfold add_hours, article_cache_expiry; by rewrite Hend].
  pose proof (same_day_within_24h now now' Hday).
  by rewrite (proj2 (Z.ltb_ge _ _)) by lia.
Qed.





(** X7. [cache_articles] changes the answer for its own key only: a lookup
    whose key is a different one answers as before the write. *)
Theorem cache_articles_other_key now topic max_articles (articles : list Dict)
    now' topic' max_articles' d :
  _generate_cache_key now topic max_articles
  <> _generate_cache_key now' topic' max_articles' ->
  fst (get_cached_articles now' topic' max_articles'
         (snd (cache_articles now topic max_articles articles d)))
  = fst (get_cached_articles now' topic' max_articles' d).
Proof.
  intros Hkey. rewrite cache_articles_run, !get_cached_articles_run.
  cbn [fst snd articles_cache_json stored].
  by rewrite lookup_insert_ne.
Qed.

Lemma cache_articles_other_key_witness :
  fst (get_cached_articles t0 "Crypto" 5
         (snd (cache_articles t0 "Crypto" 10 [a1] one_fetch)))
  = fst (get_cached_articles t0 "Crypto" 5 one_fetch).
Proof.
  apply (cache_articles_other_key t0 "Crypto" 10 [a1] t0 "Crypto" 5 one_fetch).
  vm_compute. congruence.
Defined.

(** ** The analysis cache *)

(** X8. An analysis cached for a batch is served, until the end [e] of its
    24-hour window and not after, for every permutation of the batch and
    whatever topic the lookup names: the key is made of the URLs alone.
    After the window the lookup misses, and the record stays on disk. *)
Theorem cache_analysis_then_get now now' e topic topic' analysis
    (articles articles' : list Dict) d :
  Forall has_url articles ->
  articles ≡ₚ articles' ->
  in_range now = true ->
  add_hours now analysis_cache_expiry = Some e ->
  let d1 := snd (cache_analysis now articles topic analysis d) in
  get_cached_analysis now' articles' topic' d1
  = (Ok (if e <? now' then None else Some analysis), d1).
Proof.
  intros Hall Hperm Hnow He d1. subst d1.
  assert (Hall' : Forall has_url articles') by by rewrite <- Hperm.
  rewrite cache_analysis_run, get_cached_analysis_run by done.
  cbn [snd analysis_cache_json stored].
  assert (Hkey : sorted (urls articles') = sorted (urls articles)).
  { apply sorted_Permutation. unfold urls. by rewrite Hperm. }
  rewrite Hkey, lookup_insert_eq. cbn [an_timestamp an_analysis].
  by rewrite (_is_expired_isoformat now' now _ e).
Qed.

Lemma cache_analysis_then_get_witness :
  let d1 := snd (cache_analysis t0 [a1; a2] "Crypto" summary fresh_disk) in
  get_cached_analysis (t0 + 23 * US_PER_HOUR) [a2; a1] "Markets" d1
  = (Ok (Some summary), d1)
  /\ get_cached_analysis (t0 + 25 * US_PER_HOUR) [a2; a1] "Markets" d1
     = (Ok None, d1).
Proof.
  split.
  - apply (cache_analysis_then_get t0 (t0 + 23 * US_PER_HOUR)
             (t0 + 24 * US_PER_HOUR) "Crypto" "Markets" summary
             [a1; a2] [a2; a1] fresh_disk);
      [repeat constructor; eexists; vm_compute; reflexivity
      |apply perm_swap|vm_compute; reflexivity..].
  - apply (cache_analysis_then_get t0 (t0 + 25 * US_PER_HOUR)
             (t0 + 24 * US_PER_HOUR) "Crypto" "Markets" summary
             [a1; a2] [a2; a1] fresh_disk);
      [repeat constructor; eexists; vm_compute; reflexivity
      |apply perm_swap|vm_compute; reflexivity..].
Defined.

(** ** The retention sweep *)

Lemma removed_nonneg {E} (P : string * E -> Prop) `{!forall x, Decision (P x)}
    (m : gmap string E) :
  0 <= removed m (filter P m).
Proof. unfold removed. pose proof (map_size_filter P m). lia. Qed.

Lemma removed_zero {E} (P : string * E -> Prop) `{!forall x, Decision (P x)}
    (m : gmap string E) :
  removed m (filter P m) <= 0 -> filter P m = m.
Proof. unfold removed. intros Hle. apply filter_size_id. lia. Qed.

Lemma filter_twice {E} (P : string * E -> Prop) `{!forall x, Decision (P x)}
    (m : gmap string E) :
  filter P (filter P m) = filter P m.
Proof.
  apply map_filter_id. intros i x Hix.
  by apply map_lookup_filter_Some in Hix as [_ ?].
Qed.

Lemma stored_after_sweep {E} (P : string * E -> Prop)
    `{!forall x, Decision (P x)} (f : file E) :
  stored (if 0 <? removed (stored f) (filter P (stored f))
          then Stored (filter P (stored f)) else f)
  = filter P (stored f).
Proof.
  destruct (0 <? _) eqn:Ec; [done|]. apply Z.ltb_ge in Ec.
  symmetry. by apply removed_zero.
Qed.

(** What [cleanup_old_cache] returns and writes, file by file: a file is
    rewritten only when one of its entries expired. *)
Lemma cleanup_old_cache_run now days d :
  let k1 := filter (survives now ae_timestamp (days * 24))
                   (stored (articles_cache_json d)) in
  let k2 := filter (survives now an_timestamp (days * 24))
                   (stored (analysis_cache_json d)) in
  let k3 := filter (survives now se_sent_at (30 * 24)) (ledger d) in
  let c1 := removed (stored (articles_cache_json d)) k1 in
  let c2 := removed (stored (analysis_cache_json d)) k2 in
  let c3 := removed (ledger d) k3 in
  cleanup_old_cache now days d
  = (Ok (c1 + c2 + c3),
     mkDisk (if 0 <? c1 then Stored k1 else articles_cache_json d)
            (if 0 <? c2 then Stored k2 else analysis_cache_json d)
            (if 0 <? c3 then Stored k3 else sent_articles_json d)).
Proof.
  intros k1 k2 k3 c1 c2 c3.
  assert (0 <= c2 /\ 0 <= c3) as [Hc2 Hc3]
    by (split; apply removed_nonneg).
  unfold cleanup_old_cache.
  pose proof (sweep_file articles_cache ae_timestamp now (days * 24)
                (articles_cache_json d)) as H1.
  pose proof (sweep_file analysis_cache an_timestamp now (days * 24)
                (analysis_cache_json d)) as H2.
  pose proof (sweep_file sent_articles se_sent_at now (30 * 24)
                (sent_articles_json d)) as H3.
  cbv zeta in H1, H2, H3.
  erewrite bind_Ok by apply _load_cache_spec. cbn [read_file articles_cache].
  destruct (sweep _ (stored (articles_cache_json d))) as [k1' c1'].
  destruct H1 as (-> & -> & _). fold k1 c1. rewrite Z.add_0_l.
  set (d1 := mkDisk (if 0 <? c1 then Stored k1 else articles_cache_json d)
                    (analysis_cache_json d) (sent_articles_json d)).
  assert (Hd1 : (if 0 <? c1 then _save_cache articles_cache k1 else ret tt) d
                = (Ok tt, d1)).
  { subst d1. destruct (0 <? c1); [done|]. by destruct d. }
  erewrite bind_Ok by apply Hd1.
  erewrite bind_Ok by apply _load_cache_spec.
  cbn [read_file analysis_cache d1 analysis_cache_json].
  destruct (sweep _ (stored (analysis_cache_json d))) as [k2' c2'].
  destruct H2 as (-> & -> & _). fold k2 c2.
  set (d2 := mkDisk (if 0 <? c1 then Stored k1 else articles_cache_json d)
                    (if 0 <? c2 then Stored k2 else analysis_cache_json d)
                    (sent_articles_json d)).
  assert (Hd2 : (if 0 <? c2 then _save_cache analysis_cache k2 else ret tt) d1
                = (Ok tt, d2)) by (subst d2 d1; by destruct (0 <? c2)).
  erewrite bind_Ok by apply Hd2.
  erewrite bind_Ok by apply _load_cache_spec.
  cbn [read_file sent_articles d2 sent_articles_json].
  destruct (sweep _ (stored (sent_articles_json d))) as [k3' c3'].
  destruct H3 as (-> & -> & _). fold (ledger d). fold k3 c3.
  assert (Hd3 : (if 0 <? c3 then _save_cache sent_articles k3 else ret tt) d2
                = (Ok tt,
                   mkDisk
                     (if 0 <? c1 then Stored k1 else articles_cache_json d)
                     (if 0 <? c2 then Stored k2 else analysis_cache_json d)
                     (if 0 <? c3 then Stored k3 else sent_articles_json d)))
    by (subst d2; by destruct (0 <? c3)).
  erewrite bind_Ok by apply Hd3.
  unfold ret. do 2 f_equal.
  destruct (0 <? c2) eqn:E2, (0 <? c3) eqn:E3;
    rewrite ?Z.ltb_lt, ?Z.ltb_ge in *; lia.
Qed.

(** X9. [cleanup_old_cache] run a second time at the same instant finds
    nothing to remove: it returns 0 and leaves the disk as the first run
    left it. *)
Theorem cleanup_old_cache_idempotent now days d :
  let d' := snd (cleanup_old_cache now days d) in
  cleanup_old_cache now days d' = (Ok 0, d').
Proof.
  intros d'. subst d'. rewrite (cleanup_old_cache_run now days d).
  cbn [snd]. rewrite cleanup_old_cache_run.
  cbn [articles_cache_json analysis_cache_json sent_articles_json].
  unfold ledger. cbn [sent_articles_json].
  set (m1 := stored (articles_cache_json d)).
  set (m2 := stored (analysis_cache_json d)).
  set (m3 := stored (sent_articles_json d)).
  set (P1 := survives now ae_timestamp (days * 24)).
  set (P2 := survives now an_timestamp (days * 24)).
  set (P3 := survives now se_sent_at (30 * 24)).
  subst m1 m2 m3.
  rewrite !stored_after_sweep, !filter_twice.
  assert (Hz : forall E (m : gmap string E), removed m m = 0)
    by (intros; unfold removed; lia).
  rewrite !Hz. reflexivity.
Qed.

(** X10. In a cache directory that takes every read and write, on files that
    are absent, unparseable or hold records as the class writes them,
    [cleanup_old_cache] returns a count that is never negative and is 0
    exactly when the three files are left untouched: a file is rewritten
    only when one of its entries is removed, so an absent or unparseable
    file with nothing to remove stays as it is. *)
Theorem cleanup_old_cache_zero_iff_untouched now days d :
  exists n d',
    cleanup_old_cache now days d = (Ok n, d')
    /\ 0 <= n
    /\ (n = 0 <-> d' = d).
Proof.
  rewrite cleanup_old_cache_run. eexists _, _. split; [reflexivity|].
  set (m1 := stored (articles_cache_json d)).
  set (m2 := stored (analysis_cache_json d)).
  set (P1 := survives now ae_timestamp (days * 24)).
  set (P2 := survives now an_timestamp (days * 24)).
  set (P3 := survives now se_sent_at (30 * 24)).
  pose proof (removed_nonneg P1 m1) as Hc1.
  pose proof (removed_nonneg P2 m2) as Hc2.
  pose proof (removed_nonneg P3 (ledger d)) as Hc3.
  split; [lia|]. split.
  - intros Hn.
    rewrite !(proj2 (Z.ltb_ge 0 _)) by lia. by destruct d.
  - intros Hd.
    assert (Hfix : forall E (P : string * E -> Prop)
                     `{!forall x, Decision (P x)} (f : file E),
               (if 0 <? removed (stored f) (filter P (stored f))
                then Stored (filter P (stored f)) else f) = f ->
               removed (stored f) (filter P (stored f)) = 0).
    { intros E P ? f Hf.
      destruct (0 <? removed (stored f) (filter P (stored f))) eqn:Ec.
      - pose proof (f_equal stored Hf) as Hm.
        cbn [stored] in Hm. rewrite Hm. unfold removed. lia.
      - apply Z.ltb_ge in Ec. pose proof (removed_nonneg P (stored f)). lia. }
    destruct d as [f1 f2 f3]. injection Hd as H1 H2 H3.
    apply Hfix in H1, H2, H3. subst m1 m2. unfold ledger in *.
    cbn [articles_cache_json analysis_cache_json sent_articles_json] in *.
    lia.
Qed.

(** X11. After [cleanup_old_cache days] a fetch record or an analysis record is
    still there exactly when it was there before and its timestamp parses,
    by [fromisoformat] as CPython 3.11 has it, to a naive instant whose
    retention deadline, [days * 24] hours later, is a representable
    datetime not before [now]. So a record whose timestamp does not parse,
    or is timezone-aware, is removed whatever [days] is. *)
Theorem cleanup_old_cache_keeps_exactly now days d :
  let d' := snd (cleanup_old_cache now days d) in
  (forall key entry,
     stored (articles_cache_json d') !! key = Some entry <->
     stored (articles_cache_json d) !! key = Some entry
     /\ exists e, deadline (ae_timestamp entry) (days * 24) = Some e
                  /\ now <= e)
  /\ (forall key entry,
        stored (analysis_cache_json d') !! key = Some entry <->
        stored (analysis_cache_json d) !! key = Some entry
        /\ exists e, deadline (an_timestamp entry) (days * 24) = Some e
                     /\ now <= e).
Proof.
  intros d'. subst d'. rewrite cleanup_old_cache_run. cbn [snd].
  cbn [articles_cache_json analysis_cache_json].
  rewrite !stored_after_sweep.
  assert (Hsurv : forall timestamp hours,
            _is_expired now timestamp hours = false <->
            exists e, deadline timestamp hours = Some e /\ now <= e).
  { intros timestamp hours. rewrite _is_expired_deadline.
    destruct (deadline timestamp hours) as [e|].
    - rewrite Z.ltb_ge. split; [by exists e|by intros (? & [= <-] & ?)].
    - split; [done|by intros (? & ? & ?)]. }
  split; intros key entry; rewrite map_lookup_filter_Some;
    unfold survives; cbn [snd]; by rewrite Hsurv.
Qed.

(** X12. The ledger forgets after 30 days, whatever [days] is passed: once an
    article is marked at the instant [t], a [cleanup_old_cache] run at
    [now] keeps its URL in the ledger when [now] is at most 720 hours after
    [t], and drops it otherwise, after which [filter_new_articles] lets the
    article through again. *)
Theorem ledger_forgets_after_30_days t now e days topic (a : Dict) url d :
  a !! "url" = Some url ->
  in_range t = true ->
  add_hours t (30 * 24) = Some e ->
  let d1 := snd (mark_articles_sent t [a] topic d) in
  let d2 := snd (cleanup_old_cache now days d1) in
  filter_new_articles [a] d2 = (Ok (if e <? now then [a] else []), d2).
Proof.
  intros Hurl Ht He d1 d2.
  assert (Ha : has_url a) by by exists url.
  rewrite filter_new_articles_spec by by constructor.
  do 2 f_equal. cbn [List.filter]. unfold unsent. rewrite Hurl.
  assert (Hd1 : ledger d1
                = <[url := mkSentEntry topic (isoformat t)]> (ledger d)).
  { subst d1. unfold mark_articles_sent. cbn [for_each].
    erewrite bind_Ok; cycle 1.
    { erewrite bind_Ok by by apply getitem_Some.
      apply mark_article_sent_spec. }
    reflexivity. }
  destruct (cleanup_old_cache_spec now days d1) as (d2' & Hrun & _ & _ & Hl).
  assert (d2 = d2') as -> by (subst d2; by rewrite Hrun).
  assert (Hin : url ∈ dom (ledger d2') <-> (e <? now) = false).
  { rewrite Hl, Hd1, elem_of_dom. unfold is_Some.
    setoid_rewrite map_lookup_filter_Some. rewrite lookup_insert_eq.
    unfold survives. cbn [snd se_sent_at].
    rewrite <- (_is_expired_isoformat now t (30 * 24) e) by done.
    split; [by intros (? & [= <-] & ?)|by eexists]. }
  destruct (e <? now).
  - rewrite bool_decide_eq_true_2; [done|]. intros Hu. by apply Hin in Hu.
  - rewrite bool_decide_eq_false_2; [done|]. intros Hu. by apply Hu, Hin.
Qed.

Lemma ledger_forgets_after_30_days_witness :
  let d1 := snd (mark_articles_sent t0 [a1] "Crypto" fresh_disk) in
  filter_new_articles [a1]
    (snd (cleanup_old_cache (t0 + 29 * US_PER_DAY) 7 d1)) = 
    (Ok [], snd (cleanup_old_cache (t0 + 29 * US_PER_DAY) 7 d1))
  /\ filter_new_articles [a1]
       (snd (cleanup_old_cache (t0 + 31 * US_PER_DAY) 7 d1)) = 
       (Ok [a1], snd (cleanup_old_cache (t0 + 31 * US_PER_DAY) 7 d1)).
Proof.
  split.
  - apply (ledger_forgets_after_30_days t0 (t0 + 29 * US_PER_DAY)
             (t0 + 30 * US_PER_DAY) 7 "Crypto" a1 "u1" fresh_disk);
      vm_compute; reflexivity.
  - apply (ledger_forgets_after_30_days t0 (t0 + 31 * US_PER_DAY)
             (t0 + 30 * US_PER_DAY) 7 "Crypto" a1 "u1" fresh_disk);
      vm_compute; reflexivity.
Defined.

(** ** Reset and corruption *)

(** X13. In a cache directory that the process can search and write,
    [clear_cache] leaves no file behind, whatever the three files held (a
    file that does not parse included): afterwards the statistics are all
    zero, every fetch lookup misses and every article with a URL is new
    again. *)
Theorem clear_cache_forgets_everything d :
  clear_cache d = (Ok tt, mkDisk Absent Absent Absent)
  /\ get_cache_stats (mkDisk Absent Absent Absent)
     = (Ok (0, 0, 0), mkDisk Absent Absent Absent)
  /\ (forall now topic max_articles,
        get_cached_articles now topic max_articles (mkDisk Absent Absent Absent)
        = (Ok None, mkDisk Absent Absent Absent))
  /\ (forall articles : list Dict,
        Forall has_url articles ->
        filter_new_articles articles (mkDisk Absent Absent Absent)
        = (Ok articles, mkDisk Absent Absent Absent)).
Proof.
  split; [|split; [done|split]].
  - destruct d as [[| |m1] [| |m2] [| |m3]]; reflexivity.
  - intros. by rewrite get_cached_articles_run.
  - intros articles Hall. rewrite filter_new_articles_spec by done.
    do 2 f_equal. induction Hall as [|a l [url Hurl] _ IH]; [done|].
    cbn [List.filter]. unfold unsent at 1. rewrite Hurl.
    rewrite bool_decide_eq_true_2; [by rewrite IH|].
    unfold ledger. cbn [sent_articles_json stored]. set_solver.
Qed.

(** X14. A fetch cache file that does not parse reads as empty, is left as it
    is by lookups and by [cleanup_old_cache], and is replaced by the first
    [cache_articles]: the file then holds the new record and nothing
    else. *)
Theorem corrupt_file_is_reset_by_next_write now topic max_articles
    (articles : list Dict) days d :
  articles_cache_json d = Corrupt ->
  get_cached_articles now topic max_articles d = (Ok None, d)
  /\ articles_cache_json (snd (cleanup_old_cache now days d)) = Corrupt
  /\ articles_cache_json (snd (cache_articles now topic max_articles articles d))
     = Stored {[ _generate_cache_key now topic max_articles
                 := mkArticleEntry topic (isoformat now) articles ]}.
Proof.
  intros Hc. split; [|split].
  - rewrite get_cached_articles_run, Hc. reflexivity.
  - rewrite cleanup_old_cache_run. cbn [snd articles_cache_json].
    rewrite Hc. cbn [stored]. by rewrite map_filter_empty.
  - rewrite cache_articles_run. cbn [snd articles_cache_json].
    rewrite Hc. reflexivity.
Qed.

Lemma corrupt_file_is_reset_by_next_write_witness :
  articles_cache_json
    (snd (cache_articles t0 "Crypto" 10 [a1]
            (mkDisk Corrupt Absent Absent)))
  = Stored {[ "8a456c72e541c6579f8865eec83ea380"
              := mkArticleEntry "Crypto" "2024-01-15T10:30:00" [a1] ]}.
Proof.
  destruct (corrupt_file_is_reset_by_next_write t0 "Crypto" 10 [a1] 7
              (mkDisk Corrupt Absent Absent)) as (_ & _ & Hw);
    [reflexivity|].
  rewrite Hw. vm_compute. reflexivity.
Defined.

(** X27. For every retention [days >= 1], [cleanup_old_cache days] keeps
    every fetch-cache and analysis-cache record that [_is_expired] does not
    find expired under the 24-hour window (the test the lookups apply),
    provided the end of the record's retention span, its timestamp plus
    [days * 24] hours, is still a representable datetime; it only ever
    removes entries; the ledger is pruned under its own 30-day retention;
    and the value returned is the total number of entries removed from the
    three stores. *)
Theorem cleanup_old_cache_retention now days d :
  1 <= days ->
  exists n d',
    cleanup_old_cache now days d = (Ok n, d')
    /\ (forall key entry,
          stored (articles_cache_json d) !! key = Some entry ->
          _is_expired now (ae_timestamp entry) article_cache_expiry = false ->
          is_Some (deadline (ae_timestamp entry) (days * 24)) ->
          stored (articles_cache_json d') !! key = Some entry)
    /\ (forall key entry,
          stored (analysis_cache_json d) !! key = Some entry ->
          _is_expired now (an_timestamp entry) analysis_cache_expiry = false ->
          is_Some (deadline (an_timestamp entry) (days * 24)) ->
          stored (analysis_cache_json d') !! key = Some entry)
    /\ stored (articles_cache_json d') ⊆ stored (articles_cache_json d)
    /\ stored (analysis_cache_json d') ⊆ stored (analysis_cache_json d)
    /\ ledger d' = filter (survives now se_sent_at (30 * 24)) (ledger d)
    /\ n = removed (stored (articles_cache_json d))
                   (stored (articles_cache_json d'))
           + removed (stored (analysis_cache_json d))
                     (stored (analysis_cache_json d'))
           + removed (ledger d) (ledger d').
Proof.
  intros Hdays.
  destruct (cleanup_old_cache_spec now days d)
    as (d' & Hrun & Hart & Han & Hsent).
  eexists _, d'. split; [exact Hrun|].
  split; [|split; [|split; [|split; [|split; [done|done]]]]].
  - intros key entry Hkey Hfresh Hend. rewrite Hart.
    apply map_lookup_filter_Some_2; [done|]. unfold survives. simpl.
    apply (_is_expired_mono now _ article_cache_expiry); [|done..].
    unfold article_cache_expiry. lia.
  - intros key entry Hkey Hfresh Hend. rewrite Han.
    apply map_lookup_filter_Some_2; [done|]. unfold survives. simpl.
    apply (_is_expired_mono now _ analysis_cache_expiry); [|done..].
    unfold analysis_cache_expiry. lia.
  - rewrite Hart. apply map_filter_subseteq.
  - rewrite Han. apply map_filter_subseteq.
Qed.

Lemma cleanup_old_cache_retention_witness :
  exists n d',
    cleanup_old_cache (t0 + US_PER_HOUR) 7 one_fetch = (Ok n, d')
    /\ stored (articles_cache_json d') !! "8a456c72e541c6579f8865eec83ea380"
       = Some (mkArticleEntry "Crypto" "2024-01-15T10:30:00" [a1; a2]).
Proof.
  destruct (cleanup_old_cache_retention (t0 + US_PER_HOUR) 7 one_fetch)
    as (n & d' & Hrun & Hkeep & _); [lia|].
  exists n, d'. split; [exact Hrun|].
  apply Hkeep; [vm_compute; reflexivity..|].
  eexists. vm_compute. reflexivity.
Defined.

(** X28. [_generate_cache_key] hashes the same string at two instants exactly
    when they fall on the same calendar day: same-day calls with one topic
    and count give the same key, and calls on different days hash
    different strings. *)
Theorem _generate_cache_key_by_calendar_day now1 now2 topic max_articles :
  in_range now1 = true -> in_range now2 = true ->
  (same_day now1 now2 ->
   _generate_cache_key now1 topic max_articles
   = _generate_cache_key now2 topic max_articles)
  /\ (_cache_key_text now1 topic max_articles
      = _cache_key_text now2 topic max_articles
      <-> same_day now1 now2).
Proof.
  intros H1 H2.
  pose proof (_cache_key_text_by_day now1 now2 topic max_articles H1 H2)
    as Htext.
  split; [|done]. intros Hday. unfold _generate_cache_key. f_equal.
  by apply Htext.
Qed.

Lemma _generate_cache_key_by_calendar_day_witness :
  _generate_cache_key t0 "Crypto" 10
  = _generate_cache_key (t0 + US_PER_HOUR) "Crypto" 10
  /\ _cache_key_text t0 "Crypto" 10
     <> _cache_key_text (t0 + US_PER_DAY) "Crypto" 10.
Proof.
  destruct (_generate_cache_key_by_calendar_day t0 (t0 + US_PER_HOUR)
              "Crypto" 10) as [Hsame _]; [vm_compute; reflexivity..|].
  destruct (_generate_cache_key_by_calendar_day t0 (t0 + US_PER_DAY)
              "Crypto" 10) as [_ Htext]; [vm_compute; reflexivity..|].
  split.
  - apply Hsame. vm_compute. reflexivity.
  - intros Heq. apply Htext in Heq. vm_compute in Heq. discriminate Heq.
Defined.

End CacheMore.

(** * [clear_cache] when the operating system refuses *)

Module StorageFacts.
Import Storage.

Lemma clear_cache_clears {V} (cache_files : list (node V)) :
  Forall clears cache_files ->
  clear_cache cache_files = (Ok tt, cleared <$> cache_files).
Proof.
  induction 1 as [|[f u] rest Hc _ IH]; [reflexivity|].
  cbn [clear_cache fmap list_fmap]. rewrite IH.
  destruct Hc as [Hf|[Hf Hu]]; cbn [at_path unlinks] in *.
  - subst f. reflexivity.
  - subst u. by destruct f.
Qed.

(** X29. When no path of [clear_cache] raises, nothing is left at any of them.
    Otherwise [clear_cache] stops at the first path on which [exists] or
    [unlink] raises: the error leaves the method, the files before that
    path are already removed, that path and those after it are left as
    they were. *)
Theorem clear_cache_stops_at_first_error {V}
    (before : list (node V)) (bad : node V) (after : list (node V)) :
  Forall clears before ->
  clear_cache before = (Ok tt, cleared <$> before)
  /\ (~ clears bad ->
      clear_cache (before ++ bad :: after)
      = (Raise OSError, (cleared <$> before) ++ bad :: after)).
Proof.
  intros Hbefore. split; [by apply clear_cache_clears|]. intros Hbad.
  induction Hbefore as [|[f u] rest Hc _ IH].
  - destruct bad as [f u]. cbn [app fmap list_fmap clear_cache at_path].
    destruct f; cbn [exists_]; try reflexivity.
    + exfalso. apply Hbad. by left.
    + unfold unlink. cbn [unlinks at_path]. destruct u; [|reflexivity].
      exfalso. apply Hbad. by right.
    + unfold unlink. cbn [unlinks at_path]. destruct u; [|reflexivity].
      exfalso. apply Hbad. by right.
    + unfold unlink. cbn [unlinks at_path]. destruct u; [|reflexivity].
      exfalso. apply Hbad. by right.
  - rewrite <- app_comm_cons. cbn [clear_cache fmap list_fmap].
    rewrite IH. destruct Hc as [Hf|[Hf Hu]]; cbn [at_path unlinks] in *.
    + subst f. reflexivity.
    + subst u. by destruct f.
Qed.

Lemma clear_cache_stops_at_first_error_witness :
  clear_cache [mkNode (Loads (∅ : Dict)) true; mkNode StatFails true;
               mkNode (Loads ∅) true]
  = (Raise OSError,
     [mkNode NoSuchFile true; mkNode StatFails true; mkNode (Loads ∅) true]).
Proof.
  destruct (clear_cache_stops_at_first_error
              [mkNode (Loads (∅ : Dict)) true] (mkNode StatFails true)
              [mkNode (Loads ∅) true]) as [_ Hstop].
  - constructor; [right; by split | constructor].
  - apply Hstop. intros [Hf|[Hf _]]; [discriminate Hf|]. by apply Hf.
Defined.

End StorageFacts.

(** * Message splitting (src/discord_bot.py) *)

Module DiscordFacts.
Import PyStr DiscordBot DatetimeFacts.

Lemma len_app s1 s2 : len (s1 +:+ s2) = len s1 + len s2.
Proof.
  induction s1 as [|c s1 IH]; [reflexivity|].
  rewrite app_String. cbn [len]. rewrite IH. lia.
Qed.

Lemma len_nonneg s : 0 <= len s.
Proof. induction s as [|c s IH]; cbn [len]; [lia|]. destruct (is_continuation c); lia. Qed.

Lemma len_NL : len NL = 1.
Proof. reflexivity. Qed.

Lemma split_lines_nonempty s : split_lines s <> [].
Proof.
  destruct s as [|c s]; [done|]. cbn [split_lines].
  destruct (Ascii.eqb c "010"); [done|]. by destruct (split_lines s).
Qed.

(** Joining the lines with a newline after each gives the content and one
    more newline. *)
Lemma split_lines_join s :
  foldr (fun line acc => line +:+ NL +:+ acc) "" (split_lines s) = s +:+ NL.
Proof.
  induction s as [|c s IH]; [reflexivity|]. cbn [split_lines].
  destruct (Ascii.eqb_spec c "010") as [->|Hc].
  - cbn [foldr]. rewrite IH. reflexivity.
  - pose proof (split_lines_nonempty s) as Hne.
    destruct (split_lines s) as [|line lines]; [done|].
    cbn [foldr] in *. rewrite !app_String. by rewrite IH.
Qed.

Lemma concat_app_list (l1 l2 : list string) :
  String.concat "" (l1 ++ l2) = String.concat "" l1 +:+ String.concat "" l2.
Proof.
  induction l1 as [|x l1 IH]; [reflexivity|].
  destruct l1 as [|y l1].
  - cbn [app String.concat]. destruct l2 as [|z l2].
    + by rewrite app_empty_r.
    + reflexivity.
  - change ((x :: y :: l1) ++ l2) with (x :: (y :: l1) ++ l2).
    cbn [String.concat] in *. cbn [app] in *.
    rewrite IH. by rewrite !app_assoc_string.
Qed.

Lemma concat_singleton s : String.concat "" [s] = s.
Proof. reflexivity. Qed.

(** The loop keeps all the text read so far, in order. *)
Lemma _split_message_fold max_length lines chunks current_chunk :
  let '(chunks', current') :=
    foldl (_split_message_step max_length) (chunks, current_chunk) lines in
  String.concat "" chunks' +:+ current'
  = String.concat "" chunks +:+ current_chunk
    +:+ foldr (fun line acc => line +:+ NL +:+ acc) "" lines.
Proof.
  revert chunks current_chunk.
  induction lines as [|line lines IH]; intros chunks current_chunk.
  - cbn [foldl foldr]. by rewrite app_empty_r.
  - cbn [foldl foldr]. unfold _split_message_step at 2.
    destruct (max_length <? _).
    + specialize (IH (chunks ++ [current_chunk]) (line +:+ NL)).
      destruct (foldl _ _ lines) as [chunks' current'].
      rewrite IH, concat_app_list, concat_singleton.
      by rewrite !app_assoc_string.
    + specialize (IH chunks (current_chunk +:+ line +:+ NL)).
      destruct (foldl _ _ lines) as [chunks' current'].
      rewrite IH. by rewrite !app_assoc_string.
Qed.

(** The chunks, put end to end. *)
Lemma _split_message_concat content max_length :
  String.concat "" (_split_message content max_length) = content +:+ NL.
Proof.
  unfold _split_message.
  pose proof (_split_message_fold max_length (split_lines content) [] "")
    as Hfold.
  destruct (foldl _ _ _) as [chunks current].
  rewrite split_lines_join in Hfold. cbn [String.concat] in Hfold.
  rewrite !app_empty_l in Hfold. rewrite <- Hfold.
  destruct (String.eqb_spec current "") as [->|_].
  - by rewrite app_empty_r.
  - by rewrite concat_app_list, concat_singleton.
Qed.

(** X15. [_split_message] loses and reorders nothing: the chunks, put end to
    end, are the content followed by one newline, whatever [max_length]
    is. *)
Theorem _split_message_keeps_content content max_length :
  String.concat "" (_split_message content max_length) = content +:+ NL.
Proof.
  unfold _split_message.
  pose proof (_split_message_fold max_length (split_lines content) [] "")
    as Hfold.
  destruct (foldl _ _ _) as [chunks current].
  rewrite split_lines_join in Hfold. cbn [String.concat] in Hfold.
  rewrite !app_empty_l in Hfold. rewrite <- Hfold.
  destruct (String.eqb_spec current "") as [->|_].
  - by rewrite app_empty_r.
  - by rewrite concat_app_list, concat_singleton.
Qed.

Lemma _split_message_fold_bound max_length lines chunks current_chunk :
  (forall line, line ∈ lines -> len line + 1 <= max_length) ->
  (forall chunk, chunk ∈ chunks -> 0 < len chunk <= max_length) ->
  current_chunk = "" \/ 0 < len current_chunk <= max_length ->
  let '(chunks', current') :=
    foldl (_split_message_step max_length) (chunks, current_chunk) lines in
  (forall chunk, chunk ∈ chunks' -> 0 < len chunk <= max_length)
  /\ (current' = "" \/ 0 < len current' <= max_length).
Proof.
  revert chunks current_chunk.
  induction lines as [|line lines IH]; intros chunks current Hlines Hch Hcur.
  - done.
  - cbn [foldl]. unfold _split_message_step at 2.
    assert (Hline : len line + 1 <= max_length) by (apply Hlines; by left).
    pose proof (len_nonneg line) as Hl0.
    destruct (max_length <? _) eqn:Hov.
    + apply Z.ltb_lt in Hov. apply IH.
      * intros l Hl. apply Hlines. by right.
      * intros chunk [Hc|Hc%list_elem_of_singleton]%elem_of_app; [by apply Hch|].
        subst chunk. destruct Hcur as [->|Hcur]; [|done].
        cbn [len] in Hov. lia.
      * right. rewrite len_app, len_NL. lia.
    + apply Z.ltb_ge in Hov. apply IH.
      * intros l Hl. apply Hlines. by right.
      * done.
      * right. rewrite !len_app, len_NL. pose proof (len_nonneg current). lia.
Qed.

(** X16. When every line of the content, with its newline, fits in
    [max_length], every chunk is non-empty and within [max_length]. *)
Theorem _split_message_chunks_fit content max_length :
  (forall line, line ∈ split_lines content -> len line + 1 <= max_length) ->
  forall chunk,
    chunk ∈ _split_message content max_length ->
    0 < len chunk <= max_length.
Proof.
  intros Hlines chunk. unfold _split_message.
  pose proof (_split_message_fold_bound max_length (split_lines content) [] ""
                Hlines) as Hfold.
  destruct (foldl _ _ _) as [chunks current].
  destruct Hfold as [Hch Hcur]; [by intros ? ?%elem_of_nil|by left|].
  destruct (String.eqb_spec current "") as [->|Hne]; [by apply Hch|].
  intros [Hc|Hc%list_elem_of_singleton]%elem_of_app; [by apply Hch|].
  subst chunk. by destruct Hcur.
Qed.

Lemma _split_message_chunks_fit_witness :
  0 < len ("alpha" +:+ NL +:+ "beta" +:+ NL) <= 11.
Proof.
  apply (_split_message_chunks_fit
           ("alpha" +:+ NL +:+ "beta" +:+ NL +:+ "gamma") 11).
  - intros line Hline. vm_compute in Hline.
    repeat (apply elem_of_cons in Hline as [->|Hline];
            [vm_compute; congruence|]).
    by apply elem_of_nil in Hline.
  - vm_compute. constructor.
Defined.

Lemma _split_message_fold_keeps max_length lines chunks current_chunk x :
  x ∈ chunks \/ (current_chunk = x /\ max_length < len x) ->
  let '(chunks', current') :=
    foldl (_split_message_step max_length) (chunks, current_chunk) lines in
  x ∈ chunks' \/ (current' = x /\ max_length < len x).
Proof.
  revert chunks current_chunk.
  induction lines as [|line lines IH]; intros chunks current Hx; [done|].
  cbn [foldl]. unfold _split_message_step at 2.
  pose proof (len_nonneg line) as Hl0.
  destruct (max_length <? _) eqn:Hov.
  - apply IH. left. apply elem_of_app.
    destruct Hx as [Hx|[-> _]]; [by left|right; by apply list_elem_of_singleton].
  - apply Z.ltb_ge in Hov. apply IH.
    destruct Hx as [Hx|[-> Hbig]]; [by left|lia].
Qed.

Lemma _split_message_fold_head max_length lines first chunks current_chunk :
  exists rest,
    fst (foldl (_split_message_step max_length)
           (first :: chunks, current_chunk) lines) = first :: rest.
Proof.
  revert chunks current_chunk.
  induction lines as [|line lines IH]; intros chunks current; [by eexists|].
  cbn [foldl]. unfold _split_message_step at 2.
  destruct (max_length <? _); [|apply IH].
  change ((first :: chunks) ++ [current]) with (first :: (chunks ++ [current])).
  apply IH.
Qed.

(** X17. A line too long for [max_length] is not cut: it comes out, with its
    newline, as a chunk longer than [max_length]; and when it is the first
    line of the content, the list of chunks starts with an empty string. *)
Theorem _split_message_oversized_line content max_length :
  (forall line,
     line ∈ split_lines content -> max_length < len line + 1 ->
     (line +:+ NL) ∈ _split_message content max_length
     /\ max_length < len (line +:+ NL))
  /\ (forall line lines,
        split_lines content = line :: lines -> max_length < len line + 1 ->
        exists rest, _split_message content max_length = "" :: rest).
Proof.
  split.
  - intros line Hin Hbig.
    assert (Hlen : max_length < len (line +:+ NL))
      by (rewrite len_app, len_NL; lia).
    split; [|done]. unfold _split_message.
    assert (Hgen : forall lines chunks current,
              line ∈ lines ->
              let '(chunks', current') :=
                foldl (_split_message_step max_length) (chunks, current) lines
              in (line +:+ NL) ∈ chunks'
                 \/ (current' = line +:+ NL /\ max_length < len (line +:+ NL))).
    { induction lines as [|l lines IH]; intros chunks current Hl;
        [by apply elem_of_nil in Hl|].
      cbn [foldl]. apply elem_of_cons in Hl as [<-|Hl].
      - unfold _split_message_step at 2.
        destruct (max_length <? _) eqn:Hov.
        + apply _split_message_fold_keeps. by right.
        + apply Z.ltb_ge in Hov. pose proof (len_nonneg current). lia.
      - destruct (_split_message_step max_length (chunks, current) l)
          as [chunks1 current1].
        by apply IH. }
    specialize (Hgen (split_lines content) [] "" Hin).
    destruct (foldl _ _ _) as [chunks current].
    destruct Hgen as [Hc|[-> _]].
    + destruct (String.eqb current ""); [done|]. apply elem_of_app. by left.
    + destruct (String.eqb_spec (line +:+ NL) "") as [He|_].
      * apply (f_equal len) in He. rewrite len_app, len_NL in He.
        cbn [len] in He. pose proof (len_nonneg line). lia.
      * apply elem_of_app. right. by apply list_elem_of_singleton.
  - intros line lines Hsplit Hbig. unfold _split_message. rewrite Hsplit.
    cbn [foldl]. unfold _split_message_step at 2. cbn [len].
    rewrite (proj2 (Z.ltb_lt _ _)) by lia. cbn [app].
    destruct (_split_message_fold_head max_length lines "" [] (line +:+ NL))
      as [rest Hrest].
    destruct (foldl _ _ lines) as [chunks current]. cbn [fst] in Hrest.
    subst chunks. destruct (String.eqb current ""); by eexists.
Qed.

Lemma _split_message_oversized_line_witness :
  _split_message ("abcdefgh" +:+ NL +:+ "xy") 5
  = [""; "abcdefgh" +:+ NL; "xy" +:+ NL].
Proof.
  destruct (_split_message_oversized_line ("abcdefgh" +:+ NL +:+ "xy") 5)
    as [_ Hfirst].
  destruct (Hfirst "abcdefgh" ["xy"]) as [rest Hrest];
    [vm_compute; reflexivity..|].
  rewrite Hrest. f_equal.
  assert (Hall : "" :: rest = [""; "abcdefgh" +:+ NL; "xy" +:+ NL])
    by (rewrite <- Hrest; vm_compute; reflexivity).
  by injection Hall.
Defined.

Lemma send_all_prefix send i chunks :
  let '(delivered, ok) := send_all send i chunks in
  delivered `prefix_of` chunks /\ (ok = true <-> delivered = chunks).
Proof.
  revert i. induction chunks as [|chunk rest IH]; intros i; cbn [send_all].
  - split; [done|]. done.
  - destruct (send i chunk).
    + specialize (IH (S i)). destruct (send_all send (S i) rest) as [del ok].
      destruct IH as [Hpre Hok]. split; [by apply prefix_cons|].
      rewrite Hok. split; [by intros ->|by intros [= ->]].
    + split; [apply prefix_nil|]. split; [done|discriminate].
Qed.

(** X18. [send_message] delivers a prefix of the pieces it planned (the whole
    content when it has at most 2000 characters, its chunks otherwise), in
    order; it returns true exactly when there is a channel and every piece
    went out, and then what was delivered, end to end, is the content
    (followed by a newline when it was split). After a failed send the
    pieces already delivered stay delivered; with no channel nothing is
    sent. *)
Theorem send_message_delivers_prefix channel content :
  let planned := if 2000 <? len content
                 then _split_message content 2000 else [content] in
  let '(delivered, ok) := send_message channel content in
  delivered `prefix_of` planned
  /\ (ok = true <-> is_Some channel /\ delivered = planned)
  /\ (ok = true ->
      String.concat "" delivered
      = if 2000 <? len content then content +:+ NL else content)
  /\ (channel = None -> delivered = []).
Proof.
  intros planned. unfold send_message. destruct channel as [send|].
  - assert (Hrun : send_all send 0 planned
                   = if 2000 <? len content
                     then send_all send 0 (_split_message content 2000)
                     else send_all send 0 [content])
      by (subst planned; by destruct (2000 <? len content)).
    rewrite <- Hrun. pose proof (send_all_prefix send 0%nat planned) as Hp.
    destruct (send_all send 0 planned) as [delivered ok].
    destruct Hp as [Hpre Hok]. split; [done|]. split; [|split; [|done]].
    + rewrite Hok. split; [by intros ->|by intros [_ ->]].
    + intros ->%Hok. subst planned. destruct (2000 <? len content).
      * apply _split_message_concat.
      * reflexivity.
  - split; [apply prefix_nil|]. split; [|done].
    split; [done|]. by intros [[? ?] _].
Qed.

End DiscordFacts.

(** * The fetchers and their cache (src/news_fetcher.py) *)

Module FetcherFacts.
Import Datetime Hashlib CacheManager Spec Examples DatetimeFacts CacheFacts.
Import CacheMore PyStr NewsFetcher FetchSpec.

Lemma _interstellar_article_url article url :
  _interstellar_article article url !! "url" = Some url.
Proof. reflexivity. Qed.

Lemma urls_snoc (all_articles : list Dict) (a : Dict) url :
  a !! "url" = Some url -> urls (all_articles ++ [a]) = urls all_articles ++ [url].
Proof.
  intros Hurl. unfold urls. rewrite omap_app. cbn [omap list_omap].
  by rewrite Hurl.
Qed.

Lemma _collect_results_collected max_articles results all_articles seen_urls :
  collected max_articles all_articles seen_urls ->
  Z.of_nat (length all_articles) < max_articles ->
  let '(all', seen') :=
    _collect_results max_articles results all_articles seen_urls in
  collected max_articles all' seen'.
Proof.
  revert all_articles seen_urls.
  induction results as [|article rest IH]; intros all seen Hinv Hlen; [done|].
  cbn [_collect_results].
  set (url := default "" (ni_url article)).
  destruct (String.eqb_spec url "") as [Hempty|Hne]; cbn [negb andb];
    [by apply IH|].
  destruct (bool_decide_reflect (url ∈ seen)) as [Hseen|Hnew]; cbn [negb];
    [by apply IH|].
  destruct Hinv as (Hreal & Hdup & Hsub & _).
  assert (Hinv' : collected max_articles
                    (all ++ [_interstellar_article article url])
                    (seen ∪ {[url]})).
  { split; [|split; [|split]].
    - apply Forall_app. split; [done|]. constructor; [|done].
      exists url. split; [apply _interstellar_article_url|done].
    - rewrite (urls_snoc _ _ url) by apply _interstellar_article_url.
      apply NoDup_app. split; [done|]. split; [|apply NoDup_singleton].
      intros u Hu ->%list_elem_of_singleton. by apply Hnew, Hsub.
    - intros u. rewrite (urls_snoc _ _ url) by apply _interstellar_article_url.
      rewrite elem_of_app, list_elem_of_singleton, elem_of_union,
        elem_of_singleton.
      intros [?|?]; [left; by apply Hsub|by right].
    - rewrite length_app. cbn [length]. lia. }
  destruct (max_articles <=? _) eqn:Hfull; [done|].
  apply Z.leb_gt in Hfull. by apply IH.
Qed.

Lemma _run_queries_collected http max_articles queries all_articles seen_urls :
  collected max_articles all_articles seen_urls ->
  exists seen',
    collected max_articles
      (_run_queries http max_articles queries all_articles seen_urls) seen'.
Proof.
  revert all_articles seen_urls.
  induction queries as [|query rest IH]; intros all seen Hinv;
    [by exists seen|].
  cbn [_run_queries].
  destruct (max_articles <=? _) eqn:Hfull; [by exists seen|].
  apply Z.leb_gt in Hfull.
  destruct (http query) as [|results]; [by apply IH|].
  pose proof (_collect_results_collected max_articles results all seen
                Hinv Hfull) as Hc.
  destruct (_collect_results _ _ _ _) as [all' seen']. by apply IH.
Qed.

Lemma _run_queries_spec http max_articles :
  let all_articles := _run_queries http max_articles search_queries [] ∅ in
  Forall has_real_url all_articles
  /\ NoDup (urls all_articles)
  /\ Z.of_nat (length all_articles) <= Z.max 0 max_articles
  /\ slice_to max_articles all_articles = all_articles.
Proof.
  intros all.
  destruct (_run_queries_collected http max_articles search_queries [] ∅)
    as (seen & Hreal & Hdup & _ & Hlen).
  { split; [done|]. split; [apply NoDup_nil_2|]. split; [|cbn; lia].
    by intros ? ?%elem_of_nil. }
  fold all in Hreal, Hdup, Hlen. repeat split; try done.
  unfold slice_to. destruct (0 <=? max_articles) eqn:Hpos.
  - apply Z.leb_le in Hpos. apply take_ge. lia.
  - apply Z.leb_gt in Hpos.
    assert (length all = 0%nat) as Hnil by lia.
    apply nil_length_inv in Hnil. by rewrite Hnil.
Qed.

Lemma fetch_interstellar_news_run use_cache http now later max_articles d :
  fetch_interstellar_news use_cache http now later max_articles d
  = match cache_hit use_cache now "Interstellar" max_articles d with
    | Some (article :: rest) => (Ok (article :: rest), d)
    | _ =>
        match _run_queries http max_articles search_queries [] ∅ with
        | [] => (Ok (_get_fallback_interstellar_news later), d)
        | article :: rest =>
            (Ok (article :: rest),
             if use_cache
             then snd (cache_articles later "Interstellar" max_articles
                         (article :: rest) d)
             else d)
        end
    end.
Proof.
  unfold fetch_interstellar_news, cache_hit.
  pose proof (_run_queries_spec http max_articles) as (_ & _ & _ & Hslice).
  destruct use_cache.
  - rewrite (bind_Ok _ _ _ _ _ (get_cached_articles_run _ _ _ d)).
    set (hit := match _ !! _ with Some _ => _ | None => None end).
    destruct hit as [[|a l]|]; try reflexivity;
      (destruct (_run_queries _ _ _ _ _) as [|b k] eqn:Hrun; [reflexivity|];
       cbv zeta; rewrite Hslice;
       by rewrite (bind_Ok _ _ _ _ _ (cache_articles_run _ _ _ _ d)),
            cache_articles_run).
  - cbn [bind ret].
    destruct (_run_queries _ _ _ _ _) as [|b k] eqn:Hrun; [reflexivity|].
    cbv zeta. by rewrite Hslice.
Qed.

(** X19. [fetch_interstellar_news] never returns an empty list: whenever the
    cache operations return (they are called outside the [try]; with the
    cache off there is none), it answers with a non-empty cached list, with
    what the requests collected, or with the one-article fallback. *)
Theorem fetch_interstellar_news_never_empty use_cache http now later
    max_articles d :
  exists articles d',
    fetch_interstellar_news use_cache http now later max_articles d
    = (Ok articles, d')
    /\ articles <> [].
Proof.
  rewrite fetch_interstellar_news_run.
  destruct (cache_hit _ _ _ _ _) as [[|a l]|];
    try (by eexists _, _);
    destruct (_run_queries _ _ _ _ _) as [|b k]; by eexists _, _.
Qed.

(** X20. With the cache off, [fetch_interstellar_news] leaves the disk alone and
    returns either the fallback or a list collected from the responses, in
    which every article has a non-empty [url], no [url] occurs twice, and
    there are between 1 and [max_articles] articles. *)
Theorem fetch_interstellar_news_collects_distinct http now later
    max_articles d :
  exists articles,
    fetch_interstellar_news false http now later max_articles d
    = (Ok articles, d)
    /\ (articles = _get_fallback_interstellar_news later
        \/ (Forall has_real_url articles
            /\ NoDup (urls articles)
            /\ 1 <= Z.of_nat (length articles) <= max_articles)).
Proof.
  rewrite fetch_interstellar_news_run. cbn [cache_hit].
  pose proof (_run_queries_spec http max_articles) as (Hreal & Hdup & Hlen & _).
  destruct (_run_queries _ _ _ _ _) as [|b k]; [by eexists; split; [|left]|].
  eexists. split; [reflexivity|]. right. repeat split; try done.
  - cbn [length]. lia.
  - cbn [length] in *. lia.
Qed.



(** X22. The fallback is never cached: when the cache misses and no request
    brings a usable article (every request fails, or [max_articles] is not
    positive, in which case no request is made), the fallback article is
    returned and the disk is left as it was, cache on or off. *)
Theorem fetch_interstellar_news_fallback_not_cached use_cache http now later
    max_articles d :
  cache_hit use_cache now "Interstellar" max_articles d = None ->
  max_articles <= 0 \/ (forall query, http query = NoResults) ->
  fetch_interstellar_news use_cache http now later max_articles d
  = (Ok (_get_fallback_interstellar_news later), d).
Proof.
  intros Hmiss Hnone. rewrite fetch_interstellar_news_run, Hmiss.
  assert (Hrun : _run_queries http max_articles search_queries [] ∅ = []).
  { destruct Hnone as [Hmax|Hfail].
    - cbn [_run_queries search_queries length].
      by rewrite (proj2 (Z.leb_le _ _)) by (cbn; lia).
    - unfold search_queries. cbn [_run_queries]. rewrite !Hfail.
      by destruct (max_articles <=? _). }
  by rewrite Hrun.
Qed.

Lemma fetch_interstellar_news_fallback_not_cached_witness :
  fetch_interstellar_news true (fun _ => NoResults) t0 t0 5 fresh_disk
  = (Ok (_get_fallback_interstellar_news t0), fresh_disk).
Proof.
  assert (Hmiss : cache_hit true t0 "Interstellar" 5 fresh_disk = None)
    by (vm_compute; reflexivity).
  exact (fetch_interstellar_news_fallback_not_cached true (fun _ => NoResults)
           t0 t0 5 fresh_disk Hmiss (or_intror (fun _ => eq_refl))).
Defined.

(** ** CryptoCompare *)

Section CryptoFacts.
Variable fromtimestamp : Z -> option datetime.

Lemma _crypto_article_url item a :
  _crypto_article fromtimestamp item = inr a ->
  a !! "url" = Some (item_url item).
Proof.
  unfold _crypto_article. destruct (fromtimestamp _); [|done].
  by intros [= <-].
Qed.

Lemma _crypto_articles_Ok items :
  Forall (converts fromtimestamp) items ->
  exists articles,
    _crypto_articles fromtimestamp items = inr articles
    /\ urls articles = item_url <$> items
    /\ Forall has_url articles.
Proof.
  induction 1 as [|item rest [published Hp] _ (articles & Hrun & Hurls & Hall)].
  - by exists [].
  - cbn [_crypto_articles].
    destruct (_crypto_article fromtimestamp item) as [e|a] eqn:Ha.
    { unfold _crypto_article in Ha. by rewrite Hp in Ha. }
    rewrite Hrun. exists (a :: articles).
    pose proof (_crypto_article_url item a Ha) as Hurl.
    split; [done|]. split.
    + unfold urls in *. cbn [omap list_omap fmap list_fmap].
      by rewrite Hurl, Hurls.
    + constructor; [by eexists|done].
Qed.

Lemma _crypto_articles_Raise items :
  Exists (fun item => ~ converts fromtimestamp item) items ->
  exists published_on,
    _crypto_articles fromtimestamp items
    = inl (TimestampError published_on).
Proof.
  induction items as [|item rest IH]; intros Hex;
    [by apply Exists_nil in Hex|].
  cbn [_crypto_articles]. unfold _crypto_article at 1.
  destruct (fromtimestamp (default 0 (ci_published_on item)))
    as [published|] eqn:Hp; [|by eexists].
  apply Exists_cons in Hex as [Hbad|Hex].
  { destruct Hbad. unfold converts. by rewrite Hp. }
  destruct (IH Hex) as [ts ->]. by eexists.
Qed.

Lemma fetch_crypto_news_run use_cache http now later max_articles d :
  fetch_crypto_news fromtimestamp use_cache http now later max_articles d
  = match cache_hit use_cache now "Crypto" max_articles d with
    | Some (article :: rest) => (Returned (article :: rest), d)
    | _ =>
        match http with
        | RequestException => (Returned (_get_fallback_crypto_news later), d)
        | Json data =>
            if bool_decide (cd_Type data = Some 100)
            then
              match cd_Data data with
              | Some items =>
                  match _crypto_articles fromtimestamp
                          (slice_to max_articles items) with
                  | inl e => (Raised e, d)
                  | inr articles =>
                      (Returned articles,
                       if use_cache
                       then snd (cache_articles later "Crypto" max_articles
                                   articles d)
                       else d)
                  end
              | None => (Returned (_get_fallback_crypto_news later), d)
              end
            else (Returned (_get_fallback_crypto_news later), d)
        end
    end.
Proof.
  unfold fetch_crypto_news, cache_hit.
  assert (Hput : forall articles,
            from_cache ((if use_cache
                         then cache_articles later "Crypto" max_articles
                                articles
                         else ret tt) d)
            = (Returned tt,
               if use_cache
               then snd (cache_articles later "Crypto" max_articles articles d)
               else d)).
  { intros articles. destruct use_cache; [|done].
    by rewrite cache_articles_run. }
  assert (Hget : from_cache ((if use_cache
                              then get_cached_articles now "Crypto"
                                     max_articles
                              else ret None) d)
                 = (Returned
                      (if use_cache
                       then match stored (articles_cache_json d)
                                    !! _generate_cache_key now "Crypto"
                                         max_articles with
                            | Some entry =>
                                if _is_expired now (ae_timestamp entry)
                                     article_cache_expiry
                                then None else Some (ae_articles entry)
                            | None => None
                            end
                       else None), d)).
  { destruct use_cache; [|done]. by rewrite get_cached_articles_run. }
  rewrite Hget.
  destruct (if use_cache then _ else None) as [[|a l]|]; try reflexivity;
    (destruct http as [|data]; [reflexivity|];
     destruct (bool_decide _); [|reflexivity];
     destruct (cd_Data data) as [items|]; [|reflexivity];
     destruct (_crypto_articles _ _); [reflexivity|];
     by rewrite Hput).
Qed.

(** X23. When the cache does not answer and every timestamp converts,
    [fetch_crypto_news] returns one article for each item of
    [Data[:max_articles]], in order, whose [url] is the item's [url], else
    its [guid], else the empty string. No article lacks the [url] key, so
    [filter_new_articles] accepts the list; empty and repeated URLs are not
    filtered out. *)
Theorem fetch_crypto_news_articles use_cache now later max_articles items d :
  cache_hit use_cache now "Crypto" max_articles d = None ->
  Forall (converts fromtimestamp) (slice_to max_articles items) ->
  exists articles d',
    fetch_crypto_news fromtimestamp use_cache
      (Json (mkCryptoData (Some 100) (Some items))) now later max_articles d
    = (Returned articles, d')
    /\ urls articles = item_url <$> slice_to max_articles items
    /\ length articles = length (slice_to max_articles items)
    /\ exists new_articles,
         filter_new_articles articles d' = (Ok new_articles, d').
Proof.
  intros Hmiss Hconv.
  rewrite fetch_crypto_news_run, Hmiss. cbn [cd_Type cd_Data].
  rewrite bool_decide_eq_true_2 by done.
  destruct (_crypto_articles_Ok _ Hconv) as (articles & -> & Hurls & Hall).
  eexists articles, _. split; [reflexivity|]. split; [done|]. split.
  - apply (f_equal length) in Hurls. rewrite length_fmap in Hurls.
    rewrite <- Hurls. unfold urls. clear Hurls.
    induction Hall as [|a l [u Hu] _ IH]; [done|].
    cbn [omap list_omap length]. rewrite Hu. cbn [length]. by rewrite IH.
  - eexists. by apply filter_new_articles_spec.
Qed.


(** X25. One timestamp that [datetime.fromtimestamp] rejects, among the items
    taken, makes [fetch_crypto_news] raise: no article is returned, not
    even those built before it, and nothing is cached. *)
Theorem fetch_crypto_news_bad_timestamp use_cache now later max_articles
    items d :
  cache_hit use_cache now "Crypto" max_articles d = None ->
  Exists (fun item => ~ converts fromtimestamp item)
    (slice_to max_articles items) ->
  exists published_on,
    fetch_crypto_news fromtimestamp use_cache
      (Json (mkCryptoData (Some 100) (Some items))) now later max_articles d
    = (Raised (TimestampError published_on), d).
Proof.
  intros Hmiss Hbad. rewrite fetch_crypto_news_run, Hmiss.
  cbn [cd_Type cd_Data]. rewrite bool_decide_eq_true_2 by done.
  destruct (_crypto_articles_Raise _ Hbad) as [ts ->]. by exists ts.
Qed.

(** X26. The fallback is never cached: when the cache misses and the request
    raises, or the body has a [Type] other than 100 or no [Data], the
    fallback article is returned and the disk is left as it was. *)
Theorem fetch_crypto_news_fallback_not_cached use_cache http now later
    max_articles d :
  cache_hit use_cache now "Crypto" max_articles d = None ->
  match http with
  | RequestException => True
  | Json data => cd_Type data <> Some 100 \/ cd_Data data = None
  end ->
  fetch_crypto_news fromtimestamp use_cache http now later max_articles d
  = (Returned (_get_fallback_crypto_news later), d).
Proof.
  intros Hmiss Hbad. rewrite fetch_crypto_news_run, Hmiss.
  destruct http as [|data]; [done|]. destruct Hbad as [Htype| ->].
  - by rewrite bool_decide_eq_false_2.
  - by destruct (bool_decide _).
Qed.

End CryptoFacts.

Lemma fetch_crypto_news_articles_witness :
  exists articles d',
    fetch_crypto_news utc_fromtimestamp true
      (Json (mkCryptoData (Some 100)
               (Some [item_with_url; item_without_url; item_bad_time])))
      t0 t0 2 fresh_disk
    = (Returned articles, d')
    /\ urls articles = ["https://c.example/1"; ""].
Proof.
  destruct (fetch_crypto_news_articles utc_fromtimestamp true t0 t0 2
              [item_with_url; item_without_url; item_bad_time] fresh_disk)
    as (articles & d' & Hrun & Hurls & _).
  - vm_compute. reflexivity.
  - repeat constructor; eexists; vm_compute; reflexivity.
  - exists articles, d'. split; [exact Hrun|]. rewrite Hurls.
    vm_compute. reflexivity.
Defined.


Lemma fetch_crypto_news_bad_timestamp_witness :
  exists published_on,
    fetch_crypto_news utc_fromtimestamp true
      (Json (mkCryptoData (Some 100) (Some [item_with_url; item_bad_time])))
      t0 t0 10 fresh_disk
    = (Raised (TimestampError published_on), fresh_disk).
Proof.
  apply (fetch_crypto_news_bad_timestamp utc_fromtimestamp true t0 t0 10
           [item_with_url; item_bad_time] fresh_disk).
  - vm_compute. reflexivity.
  - apply Exists_cons_tl, Exists_cons_hd. intros [t Ht].
    vm_compute in Ht. discriminate Ht.
Defined.

Lemma fetch_crypto_news_fallback_not_cached_witness :
  fetch_crypto_news utc_fromtimestamp true RequestException t0 t0 10 fresh_disk
  = (Returned (_get_fallback_crypto_news t0), fresh_disk).
Proof.
  assert (Hmiss : cache_hit true t0 "Crypto" 10 fresh_disk = None)
    by (vm_compute; reflexivity).
  exact (fetch_crypto_news_fallback_not_cached utc_fromtimestamp true
           RequestException t0 t0 10 fresh_disk Hmiss I).
Defined.

End FetcherFacts.

(** * Test vectors for the strings, the splitter and the fetchers *)

Module MoreSanity.
Import Datetime CacheManager Examples PyStr DiscordBot NewsFetcher FetchSpec.

Example split_lines_trailing : split_lines ("abc" +:+ NL) = ["abc"; ""].
Proof. reflexivity. Qed.

Example split_lines_empty : split_lines "" = [""].
Proof. reflexivity. Qed.

Example len_code_points : len "héllo" = 5.
Proof. reflexivity. Qed.

Example take_chars_code_points : take_chars 3 "hé😀llo" = "hé😀".
Proof. reflexivity. Qed.

Example slice_to_negative :
  slice_to (-1) [1; 2; 3] = [1; 2] /\ slice_to (-5) [1; 2; 3] = []
  /\ slice_to 0 [1; 2; 3] = [] /\ slice_to 5 [1; 2; 3] = [1; 2; 3].
Proof. repeat split. Qed.

Example _split_message_three_lines :
  _split_message ("alpha" +:+ NL +:+ "beta" +:+ NL +:+ "gamma") 11
  = ["alpha" +:+ NL +:+ "beta" +:+ NL; "gamma" +:+ NL].
Proof. vm_compute. reflexivity. Qed.

Example _split_message_counts_code_points :
  _split_message ("héé" +:+ NL +:+ "ab") 4 = ["héé" +:+ NL; "ab" +:+ NL].
Proof. vm_compute. reflexivity. Qed.

Example _split_message_blank_lines :
  _split_message (NL +:+ NL) 1 = [NL; NL; NL].
Proof. vm_compute. reflexivity. Qed.

Example utc_fromtimestamp_t0 : utc_fromtimestamp 1705314600 = Some t0.
Proof. vm_compute. reflexivity. Qed.

Example strftime_YmdHMS_t0 : strftime_YmdHMS t0 = "2024-01-15 10:30:00".
Proof. vm_compute. reflexivity. Qed.

End MoreSanity.
